(** * Client-defaults autofill and client type-ahead: a shallow embedding

    The repository ships five browser scripts that react to the selection of
    a client in a scheduling form:

    - [AddScheduleSpinner]   the add-schedule autofill with spinner and
                             disabled state ([forceSet], [fetchJSON],
                             [getClientDefaults], [setDisabled],
                             [handleClientChange]);
    - [AddScheduleDefaults]  static/add_schedule_defaults.js
                             ([fetchClientDefaults], [onClientChange]);
    - [AdminClientDefaults]  scheduler/admin_client_defaults.js
                             ([applyClientDefaults], [bindRow], [bindAll]);
    - [AutofillClientAdmin]  static/scheduler/js/autofill_client_admin.js
                             ([fetchMini], [findField], [set], the delegated
                             change listener);
    - [ClientTypeahead]      static/scheduler/client_typeahead.js
                             ([searchClients], [rebuildOptions], [run]).

    Every script is embedded as written.  The network is an input: each
    [fetch] call is answered by a [Net.fetch_result] chosen by the
    environment.  An [async] function is cut at the [await] of its network
    call; the code before it and the code after it are separate functions on
    the page state, so that calls in flight can be interleaved. *)

From Stdlib Require Import ZArith List String Ascii Bool Lia DecimalString.
From stdpp Require Import base option list gmap strings.

Local Open Scope string_scope.
Local Open Scope list_scope.

(** ** Completions: normal return or a thrown exception *)

Inductive completion (A : Type) : Type :=
| Normal (a : A)
| Throw.
Arguments Normal {A} a.
Arguments Throw {A}.

#[global] Instance completion_ret : MRet completion := fun A a => Normal a.

#[global] Instance completion_bind : MBind completion := fun A B k c =>
  match c with
  | Normal a => k a
  | Throw => Throw
  end.

(** [try { c } catch { h }] *)
Definition try_catch {A} (c : completion A) (h : completion A) : completion A :=
  match c with
  | Normal a => Normal a
  | Throw => h
  end.

(** ** JavaScript values and the string operations the scripts use *)

Module Js.

(** The numbers of the model are the safe integers, from [-(2^53 - 1)] to
    [2^53 - 1]: [JSON.parse] represents each of them exactly and [String]
    prints it in plain decimal.  ([String] switches to exponent notation
    only from [10^21] on, far outside this range.)  Ids and counts are such
    numbers. *)
Definition max_safe_integer : Z := 9007199254740991.

Record safe_int : Type := {
  int_val : Z;
  int_safe : (Z.abs int_val <=? max_safe_integer)%Z = true;
}.

(** The safe integer written [n]. *)
Abbreviation int n := {| int_val := n; int_safe := eq_refl |} (only parsing).

(** Values that [JSON.parse] produces, plus [undefined]; an object is its
    list of properties, keys distinct, as parsed. *)
#[warnings="-register-all"]
Inductive value : Type :=
| Undefined
| Null
| Bool (b : bool)
| Num (n : safe_int)
| Str (s : string)
| Arr (xs : list value)
| Obj (props : list (string * value)).

(** ToBoolean: what [if (v)], [!v], [v || w] and [v && w] test. *)
Definition truthy (v : value) : bool :=
  match v with
  | Undefined | Null => false
  | Bool b => b
  | Num n => negb (int_val n =? 0)%Z
  | Str s => negb (String.eqb s "")
  | Arr _ | Obj _ => true
  end.

(** [v == null] *)
Definition nullish (v : value) : bool :=
  match v with
  | Undefined | Null => true
  | _ => false
  end.

(** [a || b] *)
Definition or (a b : value) : value := if truthy a then a else b.

(** The decimal digits of an integer, with a minus sign when negative:
    what [String(n)] is for a safe integer [n]. *)
Definition string_of_Z (n : Z) : string := NilEmpty.string_of_int (Z.to_int n).

Fixpoint join (sep : string) (l : list string) : string :=
  match l with
  | [] => ""
  | [s] => s
  | s :: rest => s +:+ sep +:+ join sep rest
  end.

(** [String(v)], also the conversion applied by a template literal and by
    the DOM when a non-string is assigned to [el.value]. *)
Fixpoint to_string (v : value) : string :=
  match v with
  | Undefined => "undefined"
  | Null => "null"
  | Bool true => "true"
  | Bool false => "false"
  | Num n => string_of_Z (int_val n)
  | Str s => s
  | Arr xs =>
      join ","
        ((fix elems (l : list value) : list string :=
            match l with
            | [] => []
            | x :: l' => (if nullish x then "" else to_string x) :: elems l'
            end) xs)
  | Obj _ => "[object Object]"
  end.

(** A primitive value: [undefined], [null], a boolean, a number or a
    string.  Converting a primitive to a string runs no method of the
    value. *)
Definition primitive (v : value) : bool :=
  match v with
  | Arr _ | Obj _ => false
  | _ => true
  end.

Fixpoint assoc (k : string) (props : list (string * value)) : value :=
  match props with
  | [] => Undefined
  | (k', v) :: rest => if String.eqb k k' then v else assoc k rest
  end.

(** [v.k] for the property names the scripts read ([ok], [client],
    [results], [has_more], [id], [name] and the defaults' field names): none
    of them is a property of an array, a string, a number or a boolean, so
    only an object can answer.  Reading a property of [null] or [undefined]
    throws a TypeError. *)
Definition get (v : value) (k : string) : completion value :=
  match v with
  | Undefined | Null => Throw
  | Obj props => Normal (assoc k props)
  | _ => Normal Undefined
  end.

(** [v.k] where [v] is known not to be [null] or [undefined]. *)
Definition prop (v : value) (k : string) : value :=
  match v with
  | Obj props => assoc k props
  | _ => Undefined
  end.

(** The properties [names] of [v] are primitive values. *)
Definition primitive_at (v : value) (names : list string) : bool :=
  forallb (fun k => primitive (prop v k)) names.

(** Characters are code units below 256.  White space for [trim]: tab, line
    feed, vertical tab, form feed, carriage return, space and no-break
    space. *)
Definition is_space (c : ascii) : bool :=
  let n := nat_of_ascii c in
  (((9 <=? n) && (n <=? 13)) || (n =? 32) || (n =? 160))%nat.

Fixpoint trim_start (s : string) : string :=
  match s with
  | String c s' => if is_space c then trim_start s' else s
  | EmptyString => EmptyString
  end.

Fixpoint trim_end (s : string) : string :=
  match s with
  | EmptyString => EmptyString
  | String c s' =>
      match trim_end s' with
      | EmptyString => if is_space c then EmptyString else String c EmptyString
      | t => String c t
      end
  end.

(** [s.trim()] *)
Definition trim (s : string) : string := trim_end (trim_start s).

Definition is_digit (c : ascii) : bool :=
  let n := nat_of_ascii c in ((48 <=? n) && (n <=? 57))%nat.

Fixpoint all_digits (s : string) : bool :=
  match s with
  | EmptyString => true
  | String c s' => is_digit c && all_digits s'
  end.

(** [/^\d+$/.test(s)]: one or more of 0-9 and nothing else. *)
Definition is_digits (s : string) : bool :=
  match s with
  | EmptyString => false
  | _ => all_digits s
  end.

Definition lower_char (c : ascii) : ascii :=
  let n := nat_of_ascii c in
  if ((65 <=? n) && (n <=? 90))%nat then ascii_of_nat (n + 32) else c.

(** [s.toLowerCase()] on the letters A-Z *)
Fixpoint to_lower (s : string) : string :=
  match s with
  | EmptyString => EmptyString
  | String c s' => String (lower_char c) (to_lower s')
  end.

(** [s.includes(needle)] *)
Fixpoint includes (needle s : string) : bool :=
  String.prefix needle s ||
  match s with
  | EmptyString => false
  | String _ s' => includes needle s'
  end.

(** [s.endsWith(suffix)], also the attribute selector [[name$="suffix"]]
    for a non-empty suffix *)
Fixpoint ends_with (suffix s : string) : bool :=
  String.eqb suffix s ||
  match s with
  | EmptyString => false
  | String _ s' => ends_with suffix s'
  end.

End Js.

(** ** The network as the scripts see it *)

Module Net.

(** What [await fetch(url)] gives when it does not reject: the status, the
    content-type header if any, and the body as [res.json()] would parse it
    ([None]: the body is not JSON and [res.json()] rejects). *)
Record response : Type := {
  status : Z;
  content_type : option string;
  body : option Js.value;
}.

Inductive fetch_result : Type :=
| NetworkError
| Responded (r : response).

(** [await fetch(...)]: rejects on a network error. *)
Definition fetch (o : fetch_result) : completion response :=
  match o with
  | NetworkError => Throw
  | Responded r => Normal r
  end.

(** [res.ok]: the status is in the range 200-299. *)
Definition ok (r : response) : bool := (200 <=? status r)%Z && (status r <=? 299)%Z.

(** [(res.headers.get("content-type") || "").toLowerCase()] *)
Definition ct (r : response) : string :=
  Js.to_lower (match content_type r with Some s => s | None => "" end).

(** [await res.json()] *)
Definition json (r : response) : completion Js.value :=
  match body r with
  | Some v => Normal v
  | None => Throw
  end.

Definition is_json (r : response) : bool := Js.includes "application/json" (ct r).

(** A response with status 200, a JSON content type and the parsed body
    [b]. *)
Definition json_response (b : Js.value) : fetch_result :=
  Responded {| status := 200; content_type := Some "application/json";
               body := Some b |}.

(** A response with status 200 carrying an HTML page, as a redirect to the
    login page ends. *)
Definition html_response : fetch_result :=
  Responded {| status := 200; content_type := Some "text/html; charset=utf-8";
               body := None |}.

(** A response that claims JSON and carries a body that does not parse. *)
Definition broken_json_response : fetch_result :=
  Responded {| status := 200; content_type := Some "application/json";
               body := None |}.

(** The failures of transport and format: a network error, a status
    outside 200-299, a content type that is not JSON, a body that does not
    parse. *)
Definition failed (o : fetch_result) : bool :=
  match o with
  | NetworkError => true
  | Responded r =>
      negb (ok r) || negb (is_json r)
      || match body r with Some _ => false | None => true end
  end.

End Net.

(** ** Form controls *)

(** What an element does with a string assigned to its [value]:

    - a single-line text input ([type] text, search, tel or password)
      drops every line feed and carriage return;
    - a [<textarea>] reads a carriage return, with the line feed that
      follows it if there is one, back as one line feed;
    - a [<select>] selects the first option with that value, and without
      such an option none, its value then reading as the empty string;
    - an input with a typed value (time, date, datetime-local, number and
      the like) keeps a string that is valid for its type and stores the
      empty string for any other;
    - a hidden input, like any element that keeps what it is assigned,
      stores the string as given. *)
Inductive control : Type :=
| TextInput
| TextArea
| Select (option_values : list string)
| Typed (valid : string -> bool)
| Hidden.

Definition is_cr (c : ascii) : bool := (nat_of_ascii c =? 13)%nat.
Definition is_lf (c : ascii) : bool := (nat_of_ascii c =? 10)%nat.

Definition line_feed : ascii := ascii_of_nat 10.

Fixpoint strip_newlines (s : string) : string :=
  match s with
  | EmptyString => EmptyString
  | String c s' =>
      if is_cr c || is_lf c then strip_newlines s'
      else String c (strip_newlines s')
  end.

Fixpoint normalize_newlines (s : string) : string :=
  match s with
  | EmptyString => EmptyString
  | String c s' =>
      if is_cr c then
        String line_feed
          match s' with
          | String c' s'' =>
              if is_lf c' then normalize_newlines s'' else normalize_newlines s'
          | EmptyString => EmptyString
          end
      else String c (normalize_newlines s')
  end.

(** What [el.value] reads after [el.value = s], for an element of kind
    [k]. *)
Definition stores (k : control) (s : string) : string :=
  match k with
  | TextInput => strip_newlines s
  | TextArea => normalize_newlines s
  | Select option_values => if existsb (String.eqb s) option_values then s else ""
  | Typed valid => if valid s then s else ""
  | Hidden => s
  end.

(** A string without line feed and carriage return. *)
Fixpoint single_line (s : string) : bool :=
  match s with
  | EmptyString => true
  | String c s' => negb (is_cr c || is_lf c) && single_line s'
  end.

(** A located form control: its current value, its [disabled] flag ([None]
    when the element has no [disabled] property) and what kind of element
    it is. *)
Record field : Type := {
  value : string;
  disabled : option bool;
  kind : control;
}.

(** [el.value = v] *)
Definition set_value (v : string) (f : field) : field :=
  {| value := stores (kind f) v; disabled := disabled f; kind := kind f |}.

(** [if (el && "disabled" in el) el.disabled = flag] *)
Definition set_disabled (flag : bool) (f : field) : field :=
  {| value := value f;
     disabled := match disabled f with Some _ => Some flag | None => None end;
     kind := kind f |}.

(** An enabled single-line text input that holds [v]. *)
Definition text_input (v : string) : field :=
  {| value := v; disabled := Some false; kind := TextInput |}.

(** The element stores [s] as given. *)
Definition stored_as_given (f : field) (s : string) : Prop :=
  stores (kind f) s = s.

(** What a script's writes leave of an element: its kind, and whether it
    has a [disabled] property. *)
Definition element_of (f : field) : control * bool :=
  (kind f, match disabled f with Some _ => true | None => false end).

(** ** The add-schedule autofill with spinner ([handleClientChange]) *)

Module AddScheduleSpinner.

(** What the script does to its surroundings, in the order it does it.
    Console output is left out, except the list that
    [log("filled:", ...)] reports. *)
Inductive effect : Type :=
| Fetched (url : string)              (* fetch(url, ...) *)
| ShowSpinner                         (* showSpinner(sp) *)
| HideSpinner                         (* hideSpinner(sp) *)
| SetDisabled (flag : bool)           (* setDisabled(fields, flag) *)
| Emitted (key : string) (type : string)   (* emit(fields[key], type) *)
| LogFilled (names : list string).    (* log("filled:", filled...) *)

(** The page around the client select.  [fields] is the object that
    [locateFields()] returns: the keys [pickup], [dropoff], [start], [notes],
    [pCity], [pState], [dCity], [dState], a key being absent when nothing was
    located for it.  The eight keys locate distinct elements, and the
    document keeps its structure while calls are in flight, so every call
    works on these same elements. *)
Record page : Type := {
  client_value : string;          (* clientSelect.value *)
  client_has_parent : bool;       (* clientSelect.parentElement is an element *)
  spinner : option bool;          (* the .auto-spinner element: not injected
                                     yet, or shown (true) / hidden (false) *)
  fields : gmap string field;
  trace : list effect;
}.

Definition with_client_value (v : string) (p : page) : page :=
  {| client_value := v; client_has_parent := client_has_parent p;
     spinner := spinner p; fields := fields p; trace := trace p |}.

Definition with_spinner (s : option bool) (p : page) : page :=
  {| client_value := client_value p; client_has_parent := client_has_parent p;
     spinner := s; fields := fields p; trace := trace p |}.

Definition with_fields (fs : gmap string field) (p : page) : page :=
  {| client_value := client_value p; client_has_parent := client_has_parent p;
     spinner := spinner p; fields := fs; trace := trace p |}.

Definition log (es : list effect) (p : page) : page :=
  {| client_value := client_value p; client_has_parent := client_has_parent p;
     spinner := spinner p; fields := fields p; trace := trace p ++ es |}.

(** [ensureSpinnerFor(el)]: [null] without a parent element, else the
    spinner, injected hidden on first use. *)
Definition ensureSpinnerFor (p : page) : page * bool :=
  if client_has_parent p then
    (match spinner p with
     | None => with_spinner (Some false) p
     | Some _ => p
     end, true)
  else (p, false).

Definition showSpinner (sp : bool) (p : page) : page :=
  log [ShowSpinner] (if sp then with_spinner (Some true) p else p).

Definition hideSpinner (sp : bool) (p : page) : page :=
  log [HideSpinner] (if sp then with_spinner (Some false) p else p).

Definition setDisabled (flag : bool) (p : page) : page :=
  log [SetDisabled flag] (with_fields (set_disabled flag <$> fields p) p).

(** [value == null ? "" : String(value)] *)
Definition text_of (v : Js.value) : string :=
  if Js.nullish v then "" else Js.to_string v.

(** [forceSet(el, value)] with [el = fields[key]] *)
Definition forceSet (key : string) (v : Js.value) (p : page) : page * bool :=
  match fields p !! key with
  | None => (p, false)
  | Some el =>
      (log [Emitted key "input"; Emitted key "change"]
         (with_fields (<[key := set_value (text_of v) el]> (fields p)) p),
       true)
  end.

Definition fetchJSON (o : Net.fetch_result) : completion Js.value :=
  try_catch
    (res ← Net.fetch o;
     if negb (Net.ok res) then mret Js.Null
     else if negb (Net.is_json res) then mret Js.Null
     else data ← Net.json res; mret data)
    (mret Js.Null).

(** The record [getClientDefaults] builds (its [_source: "mini"] tag is
    never read). *)
Record defaults : Type := {
  pickup_address : Js.value;
  dropoff_address : Js.value;
  pickup_time : Js.value;
  notes : Js.value;
  pickup_city : Js.value;
  pickup_state : Js.value;
  dropoff_city : Js.value;
  dropoff_state : Js.value;
}.

Definition or_empty (v : Js.value) : Js.value := Js.or v (Js.Str "").

(** The four defaults that are written to every located control are
    primitive values, as addresses, times and notes are. *)
Definition plain_defaults (d : defaults) : bool :=
  Js.primitive (pickup_address d) && Js.primitive (dropoff_address d)
  && Js.primitive (pickup_time d) && Js.primitive (notes d).

Definition normalize (d : Js.value) : defaults :=
  {| pickup_address := or_empty (Js.prop d "pickup_address");
     dropoff_address := or_empty (Js.prop d "dropoff_address");
     pickup_time := or_empty (Js.or (Js.prop d "pickup_time") (Js.prop d "start_time"));
     notes := or_empty (Js.prop d "notes");
     pickup_city := or_empty (Js.prop d "pickup_city");
     pickup_state := or_empty (Js.prop d "pickup_state");
     dropoff_city := or_empty (Js.prop d "dropoff_city");
     dropoff_state := or_empty (Js.prop d "dropoff_state") |}.

(** [getClientDefaults(clientId)], given the answer to its fetch;
    [None] is the [null] it returns. *)
Definition getClientDefaults (o : Net.fetch_result) : completion (option defaults) :=
  d ← fetchJSON o;
  if negb (Js.truthy d) then mret None else mret (Some (normalize d)).

Definition mini_url (clientId : string) : string :=
  "/service/api/client/" +:+ clientId +:+ "/mini/".

(** [if (forceSet(fields[key], v)) filled.push(name)] *)
Definition fill (key : string) (v : Js.value) (name : string)
    (acc : page * list string) : page * list string :=
  let '(p, filled) := acc in
  let '(p', done) := forceSet key v p in
  (p', if done then filled ++ [name] else filled).

(** [if (v && forceSet(fields[key], v)) filled.push(name)] *)
Definition fill_if (key : string) (v : Js.value) (name : string)
    (acc : page * list string) : page * list string :=
  if Js.truthy v then fill key v name acc else acc.

(** The eight [forceSet] lines of [handleClientChange]. *)
Definition apply_defaults (d : defaults) (p : page) : page * list string :=
  let acc := (p, []) in
  let acc := fill "pickup" (pickup_address d) "pickup_address" acc in
  let acc := fill "dropoff" (dropoff_address d) "dropoff_address" acc in
  let acc := fill "start" (pickup_time d) "start_time/pickup_time" acc in
  let acc := fill "notes" (notes d) "notes" acc in
  let acc := fill_if "pCity" (pickup_city d) "pickup_city" acc in
  let acc := fill_if "pState" (pickup_state d) "pickup_state" acc in
  let acc := fill_if "dCity" (dropoff_city d) "dropoff_city" acc in
  let acc := fill_if "dState" (dropoff_state d) "dropoff_state" acc in
  acc.

(** What a call of [handleClientChange] holds on to across its [await]:
    the client id and whether [sp] is an element. *)
Record call : Type := {
  call_client : string;
  call_sp : bool;
}.

(** [handleClientChange(clientSelect)] up to the [await]: [None] when it
    returns at the numeric test, else the call now waiting for its fetch. *)
Definition handle_begin (p : page) : page * option call :=
  let raw := Js.trim (client_value p) in
  if negb (Js.is_digits raw) then (p, None)
  else
    let '(p, sp) := ensureSpinnerFor p in
    let p := showSpinner sp p in
    let p := setDisabled true p in
    let p := log [Fetched (mini_url raw)] p in
    (p, Some {| call_client := raw; call_sp := sp |}).

(** [handleClientChange] from the [await] on: [s] is how the awaited
    [getClientDefaults] promise settled.  The [finally] block runs on every
    path, and a rejection is passed on after it. *)
Definition handle_resume (c : call) (s : completion (option defaults))
    (p : page) : page * completion unit :=
  let '(p, r) :=
    match s with
    | Throw => (p, Throw)
    | Normal None => (p, Normal tt)
    | Normal (Some d) =>
        let '(p, filled) := apply_defaults d p in
        (log [LogFilled filled] p, Normal tt)
    end in
  let p := hideSpinner (call_sp c) p in
  let p := setDisabled false p in
  (p, r).

(** Calls in flight.  Each call that reaches its fetch gets the next
    number; the answers may come back in any order. *)
Record machine : Type := {
  pg : page;
  inflight : gmap nat call;
  issued : nat;
}.

Inductive event : Type :=
| Changed (v : string)       (* the listener runs, the select's value being [v] *)
| Settled (k : nat) (o : Net.fetch_result).  (* the fetch of call [k] is answered *)

Definition step (m : machine) (e : event) : machine :=
  match e with
  | Changed v =>
      match handle_begin (with_client_value v (pg m)) with
      | (p, Some c) =>
          {| pg := p; inflight := <[issued m := c]> (inflight m);
             issued := S (issued m) |}
      | (p, None) => {| pg := p; inflight := inflight m; issued := issued m |}
      end
  | Settled k o =>
      match inflight m !! k with
      | Some c =>
          {| pg := fst (handle_resume c (getClientDefaults o) (pg m));
             inflight := delete k (inflight m); issued := issued m |}
      | None => m
      end
  end.

Definition run (m : machine) (es : list event) : machine := fold_left step es m.

Definition start (p : page) : machine :=
  {| pg := p; inflight := ∅; issued := 0 |}.

(** The value of the field located for [key], if any. *)
Definition value_of (key : string) (p : page) : option string :=
  value <$> fields p !! key.

(** How often an effect of some kind occurs in a trace. *)
Fixpoint count (f : effect -> bool) (t : list effect) : nat :=
  match t with
  | [] => 0
  | e :: t' => (if f e then 1 else 0) + count f t'
  end.

Definition is_show (e : effect) : bool :=
  match e with ShowSpinner => true | _ => false end.

Definition is_hide (e : effect) : bool :=
  match e with HideSpinner => true | _ => false end.

Definition is_set_disabled (flag : bool) (e : effect) : bool :=
  match e with SetDisabled b => Bool.eqb b flag | _ => false end.

Definition is_fetch (e : effect) : bool :=
  match e with Fetched _ => true | _ => false end.

(** Effects of [forceSet] and of the report of the filled names. *)
Definition is_fill (e : effect) : bool :=
  match e with Emitted _ _ | LogFilled _ => true | _ => false end.

(** [forceSet] and the report of the filled names leave the spinner alone
    and add nothing to the trace but their own effects. *)
Definition fills_only (p p' : page) : Prop :=
  spinner p' = spinner p
  /\ exists t, trace p' = trace p ++ t /\ Forall (fun e => is_fill e = true) t.

(** The busy gate is balanced: the spinner has been shown, and the
    controls disabled, once for every call that has hidden it again and
    once for every call still in flight; and the numbers not yet issued
    are free. *)
Definition balanced (m : machine) : Prop :=
  count is_show (trace (pg m)) = count is_hide (trace (pg m)) + size (inflight m)
  /\ count (is_set_disabled true) (trace (pg m))
     = count (is_set_disabled false) (trace (pg m)) + size (inflight m)
  /\ forall k, issued m <= k -> inflight m !! k = None.

(** Sample data: a form with empty pickup, dropoff and notes controls. *)
Definition empty_control : field := text_input "".

Definition sample_page : page :=
  {| client_value := ""; client_has_parent := true; spinner := None;
     fields := <["pickup" := empty_control]>
                 (<["dropoff" := empty_control]> (<["notes" := empty_control]> ∅));
     trace := [] |}.

(** The lists reported by [log("filled:", ...)], in order. *)
Fixpoint filled_reports (t : list effect) : list (list string) :=
  match t with
  | [] => []
  | LogFilled names :: t' => names :: filled_reports t'
  | _ :: t' => filled_reports t'
  end.

(** The same form after the operator typed a pickup address. *)
Definition edited_page : page :=
  {| client_value := ""; client_has_parent := true; spinner := None;
     fields := <["pickup" := text_input "7 Manual Rd"]>
                 (<["dropoff" := empty_control]> (<["notes" := empty_control]> ∅));
     trace := [] |}.

(** The client record of the scenario, bare as the mini endpoint's answers
    are read, and wrapped as the defaults endpoints answer. *)
Definition flat_body : Js.value :=
  Js.Obj [("pickup_address", Js.Str "12 Elm St"); ("dropoff_address", Js.Str "");
          ("notes", Js.Str "VIP")].

Definition wrapped_body : Js.value :=
  Js.Obj [("ok", Js.Bool true); ("client", flat_body)].

(** Two answers of the mini endpoint, for two clients. *)
Definition oak : Js.value := Js.Obj [("pickup_address", Js.Str "1 Oak Ave")].
Definition pine : Js.value := Js.Obj [("pickup_address", Js.Str "2 Pine Rd")].

(** An answer whose address has a line feed in it and whose notes have a
    carriage return and a line feed. *)
Definition two_lines : Js.value :=
  Js.Obj [("pickup_address", Js.Str ("12 Elm St" +:+ String line_feed "Flat 2"));
          ("notes",
           Js.Str ("Gate 4" +:+ String (ascii_of_nat 13) (String line_feed "Ring twice")))].

End AddScheduleSpinner.

(** ** static/add_schedule_defaults.js ([onClientChange]) *)

Module AddScheduleDefaults.

(** [fetchClientDefaults(clientId)], given the answer to its fetch.  There
    is no [try] around the fetch or around [resp.json()]. *)
Definition fetchClientDefaults (clientId : Js.value) (o : Net.fetch_result)
    : completion Js.value :=
  if negb (Js.truthy clientId) then mret Js.Null
  else
    resp ← Net.fetch o;
    if negb (Net.ok resp) then mret Js.Null
    else
      json ← Net.json resp;
      ok ← Js.get json "ok";
      if Js.truthy ok then Js.get json "client" else mret Js.Null.

(** The form: the value of [#id_client] ([None] when the element is
    missing) and the six address controls by element id, a missing element
    being an absent key. *)
Record form : Type := {
  client : option string;
  controls : gmap string field;
}.

Definition ajax_defaults_url (clientId : string) : string :=
  "/service/ajax/client/" +:+ clientId +:+ "/defaults/".

(** [clientInput && clientInput.value && /^\d+$/.test(clientInput.value)
     ? clientInput.value : null] *)
Definition clientId_of (p : form) : Js.value :=
  match client p with
  | Some v =>
      if negb (String.eqb v "") && Js.is_digits v then Js.Str v else Js.Null
  | None => Js.Null
  end.

(** [onClientChange] up to its [await]: the URL it fetches, if it gets
    that far. *)
Definition onClientChange_begin (p : form) : option string :=
  let clientId := clientId_of p in
  if negb (Js.truthy clientId) then None
  else Some (ajax_defaults_url (Js.to_string clientId)).

(** [if (el && !el.value) el.value = c[name] || ''] with [el] the element
    whose id is [id] *)
Definition fill_if_empty (id name : string) (c : Js.value)
    (fs : gmap string field) : gmap string field :=
  match fs !! id with
  | Some el =>
      if String.eqb (value el) "" then
        <[id := set_value (Js.to_string (Js.or (Js.prop c name) (Js.Str ""))) el]> fs
      else fs
  | None => fs
  end.

(** [onClientChange] from the [await] on; [r] is how [fetchClientDefaults]
    settled.  The datalist suggestions that follow the six assignments
    write no control's value and are not part of the state here. *)
Definition onClientChange_resume (r : completion Js.value) (p : form)
    : form * completion unit :=
  match r with
  | Throw => (p, Throw)
  | Normal c =>
      if negb (Js.truthy c) then (p, Normal tt)
      else
        let fs := controls p in
        let fs := fill_if_empty "id_pickup_address" "pickup_address" c fs in
        let fs := fill_if_empty "id_pickup_city" "pickup_city" c fs in
        let fs := fill_if_empty "id_pickup_state" "pickup_state" c fs in
        let fs := fill_if_empty "id_dropoff_address" "dropoff_address" c fs in
        let fs := fill_if_empty "id_dropoff_city" "dropoff_city" c fs in
        let fs := fill_if_empty "id_dropoff_state" "dropoff_state" c fs in
        ({| client := client p; controls := fs |}, Normal tt)
  end.

(** One whole reaction to a change, the fetch answered by [o]. *)
Definition onClientChange (o : Net.fetch_result) (p : form) : form * completion unit :=
  match onClientChange_begin p with
  | None => (p, Normal tt)
  | Some _ => onClientChange_resume (fetchClientDefaults (clientId_of p) o) p
  end.

(** Sample data: the add-schedule form with client 42 chosen and empty
    address and notes controls. *)
Definition sample_form : form :=
  {| client := Some "42";
     controls := <["id_pickup_address" := text_input ""]>
                 (<["id_dropoff_address" := text_input ""]>
                    (<["id_notes" := text_input ""]> ∅)) |}.

(** The same form after the operator typed a pickup address. *)
Definition edited_form : form :=
  {| client := Some "42";
     controls := <["id_pickup_address" := text_input "7 Manual Rd"]>
                 (<["id_dropoff_address" := text_input ""]> ∅) |}.

(** An answer of the defaults endpoint for a client with both addresses. *)
Definition both_addresses : Js.value :=
  Js.Obj [("ok", Js.Bool true);
          ("client", Js.Obj [("pickup_address", Js.Str "12 Elm St");
                             ("dropoff_address", Js.Str "9 Quay Rd")])].

(** The form with client 42 chosen, an empty one-line pickup address and
    a state select that offers NY and NJ, nothing chosen yet. *)
Definition state_form : form :=
  {| client := Some "42";
     controls :=
       <["id_pickup_address" := text_input ""]>
         (<["id_pickup_state" := {| value := ""; disabled := Some false;
                                    kind := Select [""; "NY"; "NJ"] |}]> ∅) |}.

(** An answer whose address has a line feed in it and whose state the
    select does not offer. *)
Definition unlisted_state : Js.value :=
  Js.Obj [("ok", Js.Bool true);
          ("client",
           Js.Obj [("pickup_address", Js.Str ("12 Elm St" +:+ String line_feed "Flat 2"));
                   ("pickup_state", Js.Str "CA")])].

End AddScheduleDefaults.

(** ** scheduler/admin_client_defaults.js ([bindRow], [bindAll]) *)

Module AdminClientDefaults.

(** An [<input>] of a row: its [name] and [type] attributes and its
    value. *)
Record input_el : Type := {
  in_name : string;
  in_type : string;
  in_value : string;
}.

(** A row or form matched by [.inline-related, .change-form]: its inputs in
    document order, the six controls that [applyClientDefaults] looks up by
    name suffix (keyed as in its [fields] object), and how many change
    listeners [bindRow] has registered on it.  Every [bindRow] call passes
    a new arrow function to [addEventListener], so none is a duplicate of
    an earlier one and each is kept. *)
Record row : Type := {
  inputs : list input_el;
  fields : gmap string field;
  listeners : nat;
}.

(** [rootEl.querySelector('input[name$="client"]')] *)
Definition clientPkInput (r : row) : option input_el :=
  List.find (fun i => Js.ends_with "client" (in_name i)) (inputs r).

(** [rootEl.querySelector('input[name$="client"][type="hidden"]')] *)
Definition autoHidden (r : row) : option input_el :=
  List.find (fun i => Js.ends_with "client" (in_name i)
                      && String.eqb (Js.to_lower (in_type i)) "hidden") (inputs r).

Definition currentClientId (r : row) : option string :=
  match autoHidden r with
  | Some h =>
      if negb (String.eqb (in_value h) "") then Some (in_value h)
      else
        match clientPkInput r with
        | Some i =>
            if negb (String.eqb (in_value i) "") && Js.is_digits (in_value i)
            then Some (in_value i) else None
        | None => None
        end
  | None =>
      match clientPkInput r with
      | Some i =>
          if negb (String.eqb (in_value i) "") && Js.is_digits (in_value i)
          then Some (in_value i) else None
      | None => None
      end
  end.

Definition admin_defaults_url (clientId : string) : string :=
  "/service/admin/ajax/client/" +:+ clientId +:+ "/defaults/".

(** [applyClientDefaults(rootEl, clientId)] up to its fetch: the URLs
    requested (none for an empty id). *)
Definition applyClientDefaults_begin (clientId : string) : list string :=
  if String.eqb clientId "" then [] else [admin_defaults_url clientId].

(** [if (fields[key] && !fields[key].value) fields[key].value = c[key] || ''];
    reading [c[key]] throws when [c] is [null] or [undefined]. *)
Definition fill_where_empty (key : string) (c : Js.value)
    (fs : gmap string field) : gmap string field * completion unit :=
  match fs !! key with
  | Some el =>
      if String.eqb (value el) "" then
        match Js.get c key with
        | Normal v =>
            (<[key := set_value (Js.to_string (Js.or v (Js.Str ""))) el]> fs, Normal tt)
        | Throw => (fs, Throw)
        end
      else (fs, Normal tt)
  | None => (fs, Normal tt)
  end.

(** Statements on the located controls, run until one throws. *)
Fixpoint fill_all (keys : list string) (c : Js.value) (fs : gmap string field)
    : gmap string field * completion unit :=
  match keys with
  | [] => (fs, Normal tt)
  | k :: rest =>
      match fill_where_empty k c fs with
      | (fs', Normal _) => fill_all rest c fs'
      | (fs', Throw) => (fs', Throw)
      end
  end.

Definition keys : list string :=
  ["pickup_address"; "pickup_city"; "pickup_state";
   "dropoff_address"; "dropoff_city"; "dropoff_state"].

(** The body of the [try] block from the fetch on.  The datalist
    suggestions after the six assignments write no control's value and are
    not part of the state here; what they throw is caught like the rest. *)
Definition apply_body (o : Net.fetch_result) (fs : gmap string field)
    : gmap string field * completion unit :=
  match (resp ← Net.fetch o; Net.json resp) with
  | Throw => (fs, Throw)
  | Normal json =>
      match Js.get json "ok" with
      | Throw => (fs, Throw)
      | Normal ok =>
          if negb (Js.truthy ok) then (fs, Normal tt)
          else
            match Js.get json "client" with
            | Throw => (fs, Throw)
            | Normal c => fill_all keys c fs
            end
      end
  end.

(** [applyClientDefaults] from its fetch on: the [catch] turns every
    exception into a console warning. *)
Definition applyClientDefaults_resume (o : Net.fetch_result) (r : row)
    : row * completion unit :=
  let '(fs, _) := apply_body o (fields r) in
  ({| inputs := inputs r; fields := fs; listeners := listeners r |}, Normal tt).

(** [bindRow(rootEl)]: the initial apply when an id is current, then one
    more change listener.  Returns the URLs fetched. *)
Definition bindRow (r : row) : row * list string :=
  let fetched :=
    match currentClientId r with
    | Some initialId => applyClientDefaults_begin initialId
    | None => []
    end in
  ({| inputs := inputs r; fields := fields r; listeners := S (listeners r) |},
   fetched).

(** [bindAll()]: [bindRow] on every matched row, in document order. *)
Fixpoint bindAll (rows : list row) : list row * list string :=
  match rows with
  | [] => ([], [])
  | r :: rest =>
      let '(r', f) := bindRow r in
      let '(rest', fs) := bindAll rest in
      (r' :: rest', f ++ fs)
  end.

(** One listener's reaction to a change event; [matches] tells whether
    [ev.target.matches('select, input, .admin-autocomplete')]. *)
Definition on_change (matches : bool) (r : row) : list string :=
  if matches then
    match currentClientId r with
    | Some cid => applyClientDefaults_begin cid
    | None => []
    end
  else [].

(** A change event reaching the row: every registered listener runs.
    Returns the URLs fetched. *)
Definition dispatch_change (matches : bool) (r : row) : list string :=
  concat (replicate (listeners r) (on_change matches r)).

(** [n] passes of [bindAll] (the first at DOMContentLoaded, the others at
    [formset:added]). *)
Fixpoint bindAll_times (n : nat) (rows : list row) : list row :=
  match n with
  | O => rows
  | S n' => bindAll_times n' (fst (bindAll rows))
  end.

(** Sample data: an inline row with a raw-id client input holding 5 and an
    empty pickup control, not bound yet. *)
Definition sample_row : row :=
  {| inputs := [{| in_name := "schedule_set-0-client"; in_type := "text"; in_value := "5" |}];
     fields := <["pickup_address" := text_input ""]> ∅;
     listeners := 0 |}.

(** A row whose client is held by the hidden input of the autocomplete
    widget. *)
Definition hidden_row : row :=
  {| inputs := [{| in_name := "schedule_set-0-client"; in_type := "hidden"; in_value := "abc" |}];
     fields := ∅;
     listeners := 1 |}.

(** A row with [n] more listeners. *)
Definition more_listeners (n : nat) (r : row) : row :=
  {| inputs := inputs r; fields := fields r; listeners := listeners r + n |}.

End AdminClientDefaults.

(** ** static/scheduler/js/autofill_client_admin.js (delegated listener) *)

Module AutofillClientAdmin.

Definition fetchMini (o : Net.fetch_result) : completion Js.value :=
  try_catch
    (r ← Net.fetch o;
     if negb (Net.ok r) then mret Js.Null
     else if negb (Net.is_json r) then mret Js.Null
     else Net.json r)
    (mret Js.Null).

(** An element of the row: its [id] and [name] attributes (empty when it
    has none), its value, and what kind of element it is. *)
Record element : Type := {
  el_id : string;
  el_name : string;
  el_value : string;
  el_kind : control;
}.

(** The row that [el.closest(...)] selects: its elements in document
    order, and the events dispatched on them (element index, event type). *)
Record scope : Type := {
  elements : list element;
  events : list (nat * string);
}.

Fixpoint find_index {A} (f : A -> bool) (l : list A) : option nat :=
  match l with
  | [] => None
  | x :: rest => if f x then Some 0 else S <$> find_index f rest
  end.

(** [findField(root, suffixes)]: the position of the element found. *)
Fixpoint findField (root : list element) (suffixes : list string) : option nat :=
  match suffixes with
  | [] => None
  | suf :: rest =>
      match find_index (fun e => Js.ends_with suf (el_id e)) root with
      | Some i => Some i
      | None =>
          match find_index (fun e => Js.ends_with suf (el_name e)) root with
          | Some i => Some i
          | None => findField root rest
          end
      end
  end.

(** [set(el, v)] *)
Definition set (el : option nat) (v : Js.value) (s : scope) : scope :=
  match el with
  | None => s
  | Some i =>
      match elements s !! i with
      | None => s
      | Some e =>
          {| elements :=
               <[i := {| el_id := el_id e; el_name := el_name e;
                         el_value := stores (el_kind e)
                                       (Js.to_string (Js.or v (Js.Str "")));
                         el_kind := el_kind e |}]>
                 (elements s);
             events := events s ++ [(i, "input"); (i, "change")] |}
      end
  end.

(** The target of a change event that reached [document.body]. *)
Record target : Type := {
  tag : string;
  t_id : string;
  t_name : string;
  t_value : string;
}.

Definition isClient (t : target) : bool :=
  String.eqb (tag t) "SELECT"
  && ((negb (String.eqb (t_id t) "") && Js.ends_with "client" (t_id t))
      || (negb (String.eqb (t_name t) "") && Js.ends_with "client" (t_name t))).

(** The listener up to its [await]: the client id it fetches, if any. *)
Definition listener_begin (t : target) : option string :=
  if negb (isClient t) then None
  else if Js.is_digits (t_value t) then Some (t_value t) else None.

(** The listener from its [await] on. *)
Definition listener_resume (o : Net.fetch_result) (s : scope) : scope :=
  match fetchMini o with
  | Throw => s
  | Normal d =>
      if negb (Js.truthy d) then s
      else
        let s := set (findField (elements s) ["pickup_address"]) (Js.prop d "pickup_address") s in
        let s := set (findField (elements s) ["dropoff_address"]) (Js.prop d "dropoff_address") s in
        let s := set (findField (elements s) ["start_time"; "pickup_time"])
                   (Js.or (Js.prop d "pickup_time") (Js.prop d "start_time")) s in
        let s := set (findField (elements s) ["notes"]) (Js.prop d "notes") s in
        s
  end.

(** The ids and names of the elements, which [findField] goes by. *)
Definition shape (l : list element) : list (string * string) :=
  map (fun e => (el_id e, el_name e)) l.

(** Sample data: a row whose only element is a textarea for the notes. *)
Definition notes_row : scope :=
  {| elements := [{| el_id := "id_notes"; el_name := "notes";
                     el_value := "Ring twice"; el_kind := TextArea |}];
     events := [] |}.

End AutofillClientAdmin.

(** ** static/scheduler/client_typeahead.js *)

Module ClientTypeahead.

Definition empty_page : Js.value :=
  Js.Obj [("results", Js.Arr []); ("has_more", Js.Bool false)].

(** The query parameters [searchClients(q, limit)] puts on its URL. *)
Definition search_params (q : string) (limit : Js.safe_int) : list (string * string) :=
  (if String.eqb q "" then [] else [("q", q)])
  ++ (if Js.truthy (Js.Num limit) then [("limit", Js.to_string (Js.Num limit))] else []).

(** [searchClients(q, limit)], given the answer to its fetch.  There is no
    [try] in it. *)
Definition searchClients (o : Net.fetch_result) : completion Js.value :=
  res ← Net.fetch o;
  if negb (Net.ok res) then mret empty_page
  else if negb (Net.is_json res) then mret empty_page
  else Net.json res.

Record option_el : Type := {
  opt_value : string;
  opt_label : string;
}.

(** The client [<select>], a drop-down with one selection: its options, the
    position of the selected one, and the events dispatched on it. *)
Record select : Type := {
  options : list option_el;
  selected : option nat;
  dispatched : list string;
}.

(** [select.value]: the value of the selected option, or the empty
    string. *)
Definition select_value (s : select) : string :=
  match selected s with
  | Some i =>
      match options s !! i with
      | Some o => opt_value o
      | None => ""
      end
  | None => ""
  end.

(** [while (select.firstChild) select.removeChild(select.firstChild)] *)
Definition clear (s : select) : select :=
  {| options := []; selected := None; dispatched := dispatched s |}.

(** [select.appendChild(option)]: when nothing is selected the drop-down
    selects its first option. *)
Definition appendChild (o : option_el) (s : select) : select :=
  {| options := options s ++ [o];
     selected := match selected s with Some i => Some i | None => Some 0 end;
     dispatched := dispatched s |}.

Definition dispatchEvent (type : string) (s : select) : select :=
  {| options := options s; selected := selected s;
     dispatched := dispatched s ++ [type] |}.

Definition placeholder_label : string := "— Select client —".

Definition placeholder : option_el :=
  {| opt_value := ""; opt_label := placeholder_label |}.

(** [h("option", { value: value }, [label])]: a string child becomes the
    option's text; [appendChild] of anything else that is not [null] or
    [undefined] throws. *)
Definition h_option (value : string) (label : Js.value) : completion option_el :=
  match label with
  | Js.Str s => Normal {| opt_value := value; opt_label := s |}
  | Js.Undefined | Js.Null => Normal {| opt_value := value; opt_label := "" |}
  | _ => Throw
  end.

(** The option built for one result [r] in the loop body. *)
Definition option_for (r : Js.value) : completion option_el :=
  name ← Js.get r "name";
  id ← Js.get r "id";
  let label := Js.or name (Js.Str ("Client #" +:+ Js.to_string id)) in
  h_option (Js.to_string id) label.

Fixpoint add_options (rs : list Js.value) (s : select) : select * completion unit :=
  match rs with
  | [] => (s, Normal tt)
  | r :: rest =>
      match option_for r with
      | Normal o => add_options rest (appendChild o s)
      | Throw => (s, Throw)
      end
  end.

(** What [for (const r of results)] iterates over: the elements of an
    array, the characters of a string; anything else is not iterable. *)
Definition iterate (results : Js.value) : completion (list Js.value) :=
  match results with
  | Js.Arr xs => Normal xs
  | Js.Str s => Normal (map (fun c => Js.Str (String c EmptyString)) (list_ascii_of_string s))
  | _ => Throw
  end.

Fixpoint index_of (v : string) (os : list option_el) : option nat :=
  match os with
  | [] => None
  | o :: rest => if String.eqb (opt_value o) v then Some 0 else S <$> index_of v rest
  end.

(** [if (old) { opt = options.find(o => o.value === String(old));
     if (opt) opt.selected = true }] *)
Definition restore (old : Js.value) (s : select) : select :=
  if Js.truthy old then
    match index_of (Js.to_string old) (options s) with
    | Some i => {| options := options s; selected := Some i; dispatched := dispatched s |}
    | None => s
    end
  else s.

(** [rebuildOptions(select, results, keepValue)] *)
Definition rebuildOptions (s : select) (results : Js.value) (keepValue : Js.value)
    : select * completion unit :=
  let old := if Js.nullish keepValue then Js.Str (select_value s) else keepValue in
  let s := clear s in
  let s := appendChild placeholder s in
  match iterate results with
  | Throw => (s, Throw)
  | Normal rs =>
      match add_options rs s with
      | (s, Throw) => (s, Throw)
      | (s, Normal _) =>
          let s := restore old s in
          let s := dispatchEvent "input" s in
          let s := dispatchEvent "change" s in
          (s, Normal tt)
      end
  end.

(** The status line under the search box. *)
Inductive status : Type :=
| Blank                 (* "" *)
| Searching             (* "Searching…" *)
| Showing (n : nat)     (* "Showing n+ results… refine your search" *)
| Found (n : nat)       (* "Found n" *)
| SearchFailed.         (* "Search failed" *)

Record widget : Type := {
  search_value : string;
  status_line : status;
  sel : select;
}.

(** [results.length] of something iterable *)
Definition length_of (results : Js.value) : nat :=
  match results with
  | Js.Arr xs => length xs
  | Js.Str s => String.length s
  | _ => 0
  end.

(** The debounced handler [run] up to its [await]: the status and the
    query parameters of the request. *)
Definition run_begin (w : widget) : widget * list (string * string) :=
  let q := Js.trim (search_value w) in
  ({| search_value := search_value w;
      status_line := if String.eqb q "" then Blank else Searching;
      sel := sel w |},
   search_params q (Js.int 20)).

(** [run] from its [await] on, for the query [q] it was started with. *)
Definition run_resume (q : string) (o : Net.fetch_result) (w : widget) : widget :=
  let failed s := {| search_value := search_value w; status_line := SearchFailed; sel := s |} in
  match (page ← searchClients o;
         results ← Js.get page "results";
         has_more ← Js.get page "has_more";
         mret (results, has_more)) with
  | Throw => failed (sel w)
  | Normal (results, has_more) =>
      match rebuildOptions (sel w) results Js.Undefined with
      | (s, Throw) => failed s
      | (s, Normal _) =>
          {| search_value := search_value w;
             status_line :=
               if negb (String.eqb q "") && Js.truthy has_more
               then Showing (length_of results)
               else if negb (String.eqb q "") then Found (length_of results)
               else Blank;
             sel := s |}
      end
  end.

(** The options the loop of [rebuildOptions] has appended when it ends: one
    for each result up to the first for which none can be built. *)
Fixpoint options_before_failure (rs : list Js.value) : list option_el :=
  match rs with
  | [] => []
  | r :: rest =>
      match option_for r with
      | Normal o => o :: options_before_failure rest
      | Throw => []
      end
  end.

(** The same for whatever [results] is: nothing is appended when it cannot
    be iterated. *)
Definition built_from (results : Js.value) : list option_el :=
  match iterate results with
  | Normal rs => options_before_failure rs
  | Throw => []
  end.

(** A search result as the search endpoint documents it: an object whose
    [name], when it has one, is a string. *)
Definition is_item (r : Js.value) : bool :=
  match r with
  | Js.Obj props =>
      match Js.assoc "name" props with
      | Js.Str _ | Js.Undefined | Js.Null => true
      | _ => false
      end
  | _ => false
  end.


(** The option for an item: its id as value; its name as label or, without
    a name, the label made from its id. *)
Definition item_option (r : Js.value) : option_el :=
  let id := Js.to_string (Js.prop r "id") in
  {| opt_value := id;
     opt_label :=
       match Js.prop r "name" with
       | Js.Str n => if String.eqb n "" then "Client #" +:+ id else n
       | _ => "Client #" +:+ id
       end |}.

(** Sample data: the select with clients 7 and 9, client 7 selected; the
    result of the query "Jane"; a result page without client 7. *)
Definition sample_select : select :=
  {| options := [placeholder;
                 {| opt_value := "7"; opt_label := "Jane Doe" |};
                 {| opt_value := "9"; opt_label := "Joe Bloggs" |}];
     selected := Some 1;
     dispatched := [] |}.


Definition others : list Js.value :=
  [Js.Obj [("id", Js.Num (Js.int 9)); ("name", Js.Str "Joe Bloggs")];
   Js.Obj [("id", Js.Num (Js.int 12))]].

(** A page whose second result has a number for a name. *)
Definition broken_page : Js.value :=
  Js.Obj [("results",
           Js.Arr [Js.Obj [("id", Js.Num (Js.int 9)); ("name", Js.Str "Joe Bloggs")];
                   Js.Obj [("id", Js.Num (Js.int 12)); ("name", Js.Num (Js.int 5))];
                   Js.Obj [("id", Js.Num (Js.int 7)); ("name", Js.Str "Jane Doe")]]);
          ("has_more", Js.Bool false)].

End ClientTypeahead.

(** ** Datalist suggestions ([ensureDatalist]) *)

Module Suggestions.

(** The datalists appended to the document body, by element id, each with
    the values of its options in order; and the [list] attribute of the
    controls, by the control's key.  No other element of the document has
    an id that starts with [dl_]. *)
Record store : Type := {
  datalists : gmap string (list string);
  list_attr : gmap string string;
}.

(** [v && String(v).trim() !== ''] *)
Definition keeps (v : Js.value) : bool :=
  Js.truthy v && negb (String.eqb (Js.trim (Js.to_string v)) "").

(** [ensureDatalist(input, id, values)] for the control [key]: the
    datalist is found or created, emptied, and filled again. *)
Definition ensureDatalist (key id : string) (values : list Js.value)
    (st : store) : store :=
  {| datalists := <[id := map Js.to_string (List.filter keeps values)]> (datalists st);
     list_attr := <[key := id]> (list_attr st) |}.

(** [if (el) ensureDatalist(el, prefix + clientId, [c[name]])], the
    reading of [c[name]] throwing when [c] is [null] or [undefined] *)
Definition suggest (key prefix name clientId : string) (c : Js.value)
    (fs : gmap string field) (st : store) : store * completion unit :=
  match fs !! key with
  | None => (st, Normal tt)
  | Some _ =>
      match Js.get c name with
      | Normal v => (ensureDatalist key (prefix +:+ clientId) [v] st, Normal tt)
      | Throw => (st, Throw)
      end
  end.

(** Statements run until one throws. *)
Fixpoint suggest_all (lines : list (string * string * string)) (clientId : string)
    (c : Js.value) (fs : gmap string field) (st : store) : store * completion unit :=
  match lines with
  | [] => (st, Normal tt)
  | (key, prefix, name) :: rest =>
      match suggest key prefix name clientId c fs st with
      | (st', Normal _) => suggest_all rest clientId c fs st'
      | (st', Throw) => (st', Throw)
      end
  end.

(** The six [ensureDatalist] lines of [onClientChange]: control, prefix of
    the datalist id, field of the client record. *)
Definition form_lines : list (string * string * string) :=
  [("id_pickup_address", "dl_pickup_addr_", "pickup_address");
   ("id_pickup_city", "dl_pickup_city_", "pickup_city");
   ("id_pickup_state", "dl_pickup_state_", "pickup_state");
   ("id_dropoff_address", "dl_drop_addr_", "dropoff_address");
   ("id_dropoff_city", "dl_drop_city_", "dropoff_city");
   ("id_dropoff_state", "dl_drop_state_", "dropoff_state")].

(** The six [ensureDatalist] lines of [applyClientDefaults]. *)
Definition row_lines : list (string * string * string) :=
  [("pickup_address", "dl_pickup_addr_", "pickup_address");
   ("pickup_city", "dl_pickup_city_", "pickup_city");
   ("pickup_state", "dl_pickup_state_", "pickup_state");
   ("dropoff_address", "dl_drop_addr_", "dropoff_address");
   ("dropoff_city", "dl_drop_city_", "dropoff_city");
   ("dropoff_state", "dl_drop_state_", "dropoff_state")].

(** The end of [onClientChange], after the six assignments, for the client
    record [c] it received. *)
Definition onClientChange_suggestions (clientId : string) (c : Js.value)
    (fs : gmap string field) (st : store) : store * completion unit :=
  suggest_all form_lines clientId c fs st.

(** The option a default becomes, if it becomes one. *)
Definition options_for (v : Js.value) : list string :=
  map Js.to_string (List.filter keeps [v]).

Definition no_suggestions : store := {| datalists := ∅; list_attr := ∅ |}.

End Suggestions.

(** ** [debounce(fn, ms)] *)

Module Debounce.

(** The closure's timer variable [t]: the timeout that is pending, with
    the time it is due and the arguments it will pass to [fn]; and the
    calls of [fn] made so far, with their times.  A timeout that is due
    runs before anything that happens later. *)
Record state (A : Type) : Type := {
  timer : option (nat * A);
  fired : list (nat * A);
}.
Arguments timer {A} s.
Arguments fired {A} s.

Definition idle {A} : state A := {| timer := None; fired := [] |}.

(** Time has reached [now]: a timeout due before that has run. *)
Definition advance {A} (now : nat) (s : state A) : state A :=
  match timer s with
  | Some (due, a) =>
      if (due <? now)%nat
      then {| timer := None; fired := fired s ++ [(due, a)] |}
      else s
  | None => s
  end.

(** The debounced function is called at time [now] with [a]:
    [clearTimeout(t); t = setTimeout(() => fn.apply(this, args), ms)]. *)
Definition call {A} (ms : nat) (now : nat) (a : A) (s : state A) : state A :=
  let s := advance now s in
  {| timer := Some (now + ms, a); fired := fired s |}.

Fixpoint calls {A} (ms : nat) (cs : list (nat * A)) (s : state A) : state A :=
  match cs with
  | [] => s
  | (now, a) :: rest => calls ms rest (call ms now a s)
  end.

(** When the timeout set by a call is due, and what it passes on. *)
Definition due_of {A} (ms : nat) (c : nat * A) : nat * A := (fst c + ms, snd c).

(** Nothing more is typed: the pending timeout runs. *)
Definition settle {A} (s : state A) : list (nat * A) :=
  match timer s with
  | Some (due, a) => fired s ++ [(due, a)]
  | None => fired s
  end.

(** Every call comes less than [ms] after the one before. *)
Fixpoint burst {A} (ms : nat) (last : nat) (cs : list (nat * A)) : Prop :=
  match cs with
  | [] => True
  | (now, _) :: rest => last <= now /\ now < last + ms /\ burst ms now rest
  end.

(** The calls are in the order of time. *)
Fixpoint in_order {A} (last : nat) (cs : list (nat * A)) : Prop :=
  match cs with
  | [] => True
  | (now, _) :: rest => last <= now /\ in_order now rest
  end.

End Debounce.

(** ** The listeners that [ready] registers on the client select *)

Module PageEvents.
Import AddScheduleSpinner.




(** The end of [ready]: [if (clientSelect.value) onChange()], the prefill
    when an existing schedule is edited. *)
Definition prefill (m : machine) : machine :=
  if String.eqb (client_value (pg m)) "" then m
  else step m (Changed (client_value (pg m))).

(** An event of the kinds a form control has by itself. *)
Definition plain_event (e : effect) : Prop :=
  match e with
  | Emitted _ type => type = "input" \/ type = "change"
  | _ => True
  end.

(** Sample data: a stored schedule of client 42 opened for editing. *)
Definition stored_page : page :=
  {| client_value := "42"; client_has_parent := true; spinner := None;
     fields := <["pickup" := text_input "7 Manual Rd"]> ∅;
     trace := [] |}.


(** Sample data: a form with filled notes and pickup city controls. *)
Definition city_page : page :=
  {| client_value := "1"; client_has_parent := true; spinner := None;
     fields := <["notes" := text_input "Ring twice"]>
                 (<["pCity" := text_input "Leeds"]> ∅);
     trace := [] |}.

(** Is a control located for the key? *)
Definition located (fs : gmap string field) (key : string) : bool :=
  match fs !! key with Some _ => true | None => false end.

Definition name_if (b : bool) (name : string) : list string :=
  if b then [name] else [].

(** The names that [handleClientChange] pushes on [filled]: a located
    control among the first four whatever the default, a located city or
    state control when its default is truthy. *)
Definition names_written (d : defaults) (fs : gmap string field) : list string :=
  name_if (located fs "pickup") "pickup_address"
  ++ name_if (located fs "dropoff") "dropoff_address"
  ++ name_if (located fs "start") "start_time/pickup_time"
  ++ name_if (located fs "notes") "notes"
  ++ name_if (Js.truthy (pickup_city d) && located fs "pCity") "pickup_city"
  ++ name_if (Js.truthy (pickup_state d) && located fs "pState") "pickup_state"
  ++ name_if (Js.truthy (dropoff_city d) && located fs "dCity") "dropoff_city"
  ++ name_if (Js.truthy (dropoff_state d) && located fs "dState") "dropoff_state".

(** A fetch of the mini endpoint for an id made of digits. *)
Definition numeric_fetch (e : effect) : Prop :=
  match e with
  | Fetched url => exists id, Js.is_digits id = true /\ url = mini_url id
  | _ => True
  end.

(** The events dispatched on controls, in order. *)
Fixpoint emitted (t : list effect) : list (string * string) :=
  match t with
  | [] => []
  | Emitted key type :: t' => (key, type) :: emitted t'
  | _ :: t' => emitted t'
  end.

End PageEvents.

(** ** What the fill-if-empty scripts may write *)

Module FillSpec.

(** The controls [onClientChange] assigns to, by element id, each with the
    field of the client record it takes. *)
Definition form_fields : list (string * string) :=
  [("id_pickup_address", "pickup_address"); ("id_pickup_city", "pickup_city");
   ("id_pickup_state", "pickup_state"); ("id_dropoff_address", "dropoff_address");
   ("id_dropoff_city", "dropoff_city"); ("id_dropoff_state", "dropoff_state")].

(** [c[name] || ''] as the text a control takes *)
Definition default_text (c : Js.value) (name : string) : string :=
  Js.to_string (Js.or (Js.prop c name) (Js.Str "")).

(** A control is as it was, or was empty and now holds a value; its
    [disabled] flag is as it was. *)
Definition filled_or_kept (f f' : field) : Prop :=
  disabled f' = disabled f /\ (value f' = value f \/ value f = "").

(** A row whose pickup address was typed and whose city is empty. *)
Definition typed_row : AdminClientDefaults.row :=
  {| AdminClientDefaults.inputs :=
       [{| AdminClientDefaults.in_name := "client"; AdminClientDefaults.in_type := "text";
           AdminClientDefaults.in_value := "5" |}];
     AdminClientDefaults.fields :=
       <["pickup_address" := text_input "7 Manual Rd"]>
         (<["pickup_city" := text_input ""]> ∅);
     AdminClientDefaults.listeners := 1 |}.

End FillSpec.

(** * Properties *)

(** ** [handleClientChange]: fields, traces and the busy gate *)

Module ControlFacts.

(** Every kind of element stores the empty string as given. *)
Lemma stores_empty k : stores k "" = "".
Proof. destruct k as [| |opts|valid|]; simpl; try done; by destruct (_ : bool). Qed.

Lemma strip_single_line s : single_line s = true -> strip_newlines s = s.
Proof.
  induction s as [|c s IH]; simpl; [done|].
  destruct (is_cr c || is_lf c); simpl; [done|]. intros H. by rewrite IH.
Qed.

Lemma normalize_single_line s : single_line s = true -> normalize_newlines s = s.
Proof.
  induction s as [|c s IH]; simpl; [done|].
  destruct (is_cr c); simpl; [done|].
  destruct (is_lf c); simpl; [done|]. intros H. by rewrite IH.
Qed.

(** A text input, a textarea and a hidden input store a string without
    line breaks as given; a select stores the value of any of its
    options. *)
Lemma text_stored_as_given f s :
  kind f = TextInput \/ kind f = TextArea \/ kind f = Hidden ->
  single_line s = true -> stored_as_given f s.
Proof.
  unfold stored_as_given. intros [-> | [-> | ->]] H; simpl;
    [by apply strip_single_line | by apply normalize_single_line | done].
Qed.

Lemma option_stored_as_given f option_values s :
  kind f = Select option_values -> In s option_values -> stored_as_given f s.
Proof.
  unfold stored_as_given. intros -> H. simpl.
  assert (existsb (String.eqb s) option_values = true) as ->; [|done].
  apply existsb_exists. exists s. split; [done | apply String.eqb_refl].
Qed.

Lemma stores_empty_lookup (m : option field) :
  (fun f => stores (kind f) "") <$> m = (fun _ => "") <$> m.
Proof. destruct m; simpl; by rewrite ?stores_empty. Qed.

End ControlFacts.

Module SpinnerFacts.
Import AddScheduleSpinner.

Lemma forceSet_fields key v p :
  fields (fst (forceSet key v p)) = alter (set_value (text_of v)) key (fields p).
Proof.
  unfold forceSet. destruct (fields p !! key) as [el|] eqn:E; simpl.
  - apply map_eq. intros k. destruct (decide (key = k)) as [<-|Hne].
    + by rewrite lookup_insert_eq, lookup_alter_eq, E.
    + by rewrite lookup_insert_ne, lookup_alter_ne.
  - apply map_eq. intros k. destruct (decide (key = k)) as [<-|Hne].
    + by rewrite lookup_alter_eq, E.
    + by rewrite lookup_alter_ne.
Qed.

Lemma fill_fields key v name acc :
  fields (fst (fill key v name acc))
  = alter (set_value (text_of v)) key (fields (fst acc)).
Proof.
  destruct acc as [p filled]. unfold fill.
  pose proof (forceSet_fields key v p) as H.
  destruct (forceSet key v p) as [p' b]. exact H.
Qed.

Lemma fill_if_fields key v name acc :
  fields (fst (fill_if key v name acc))
  = if Js.truthy v then alter (set_value (text_of v)) key (fields (fst acc))
    else fields (fst acc).
Proof. unfold fill_if. destruct (Js.truthy v); [apply fill_fields | done]. Qed.

Lemma lookup_fill_eq key v name acc :
  fields (fst (fill key v name acc)) !! key
  = set_value (text_of v) <$> fields (fst acc) !! key.
Proof. by rewrite fill_fields, lookup_alter_eq. Qed.

Lemma lookup_fill_ne key k v name acc :
  k ≠ key ->
  fields (fst (fill k v name acc)) !! key = fields (fst acc) !! key.
Proof. intros. by rewrite fill_fields, lookup_alter_ne. Qed.

Lemma lookup_fill_if_ne key k v name acc :
  k ≠ key ->
  fields (fst (fill_if k v name acc)) !! key = fields (fst acc) !! key.
Proof.
  intros. rewrite fill_if_fields.
  destruct (Js.truthy v); [by rewrite lookup_alter_ne | done].
Qed.

Ltac lookup_fills :=
  repeat first
    [ rewrite lookup_fill_if_ne by done
    | rewrite lookup_fill_ne by done
    | rewrite lookup_fill_eq ].

(** The four controls that [handleClientChange] always writes hold the
    text of the defaults afterwards, as each stores it, whatever they held
    before. *)
Lemma apply_defaults_values d p :
  let p' := fst (apply_defaults d p) in
  value_of "pickup" p'
  = (fun f => stores (kind f) (text_of (pickup_address d))) <$> fields p !! "pickup"
  /\ value_of "dropoff" p'
     = (fun f => stores (kind f) (text_of (dropoff_address d))) <$> fields p !! "dropoff"
  /\ value_of "start" p'
     = (fun f => stores (kind f) (text_of (pickup_time d))) <$> fields p !! "start"
  /\ value_of "notes" p'
     = (fun f => stores (kind f) (text_of (notes d))) <$> fields p !! "notes".
Proof.
  unfold value_of, apply_defaults. cbv zeta.
  repeat split; lookup_fills; simpl; by destruct (fields p !! _).
Qed.

(** Writing a value or the flag leaves the element what it is. *)
Lemma set_value_element v f : element_of (set_value v f) = element_of f.
Proof. done. Qed.

Lemma set_disabled_element flag f : element_of (set_disabled flag f) = element_of f.
Proof. unfold element_of. simpl. by destruct (disabled f). Qed.

Lemma alter_elements (g : field -> field) key (m : gmap string field) :
  (forall f, element_of (g f) = element_of f) ->
  element_of <$> alter g key m = element_of <$> m.
Proof.
  intros Hg. apply map_eq. intros k. rewrite !lookup_fmap.
  destruct (decide (key = k)) as [<-|Hne].
  - rewrite lookup_alter_eq. destruct (m !! key); simpl; by rewrite ?Hg.
  - by rewrite lookup_alter_ne.
Qed.

Lemma fmap_elements (g : field -> field) (m : gmap string field) :
  (forall f, element_of (g f) = element_of f) ->
  element_of <$> (g <$> m) = element_of <$> m.
Proof.
  intros Hg. apply map_eq. intros k. rewrite !lookup_fmap.
  destruct (m !! k); simpl; by rewrite ?Hg.
Qed.

Lemma apply_defaults_elements d p :
  element_of <$> fields (fst (apply_defaults d p)) = element_of <$> fields p.
Proof.
  unfold apply_defaults. cbv zeta.
  rewrite !fill_if_fields, !fill_fields.
  repeat match goal with
         | |- context [if Js.truthy ?v then _ else _] => destruct (Js.truthy v)
         end;
    by rewrite ?alter_elements by apply set_value_element.
Qed.

(** Elements of the same kind store a string alike. *)
Lemma stores_elements (m m' : gmap string field) (key : string) (x : string) :
  element_of <$> m' = element_of <$> m ->
  (fun f => stores (kind f) x) <$> m' !! key = (fun f => stores (kind f) x) <$> m !! key.
Proof.
  intros He. apply (f_equal (fun mm => mm !! key)) in He.
  rewrite !lookup_fmap in He.
  destruct (m' !! key) as [f'|], (m !! key) as [f|]; simpl in *; try done.
  by injection He as -> _.
Qed.

(** The elements keep their [disabled] property. *)
Lemma lookup_elements (m m' : gmap string field) (key : string) (f : field) :
  element_of <$> m' = element_of <$> m ->
  m !! key = Some f ->
  exists f', m' !! key = Some f' /\ kind f' = kind f
             /\ (is_Some (disabled f') <-> is_Some (disabled f)).
Proof.
  intros He Hf. apply (f_equal (fun mm => mm !! key)) in He.
  rewrite !lookup_fmap, Hf in He.
  destruct (m' !! key) as [f'|]; simpl in *; [|done].
  exists f'. unfold element_of in He. injection He as Hk Hd.
  split; [done|]. split; [done|].
  destruct (disabled f'), (disabled f); try done; split; intros [? ?]; eauto; done.
Qed.

Lemma fills_only_refl p : fills_only p p.
Proof. split; [done|]. exists []. by rewrite app_nil_r. Qed.

Lemma fills_only_trans p q r : fills_only p q -> fills_only q r -> fills_only p r.
Proof.
  intros [Hs1 (t1 & Ht1 & Hf1)] [Hs2 (t2 & Ht2 & Hf2)]. split; [congruence|].
  exists (t1 ++ t2). split; [by rewrite Ht2, Ht1, app_assoc | by apply Forall_app].
Qed.

Lemma forceSet_fills_only key v p : fills_only p (fst (forceSet key v p)).
Proof.
  unfold forceSet. destruct (fields p !! key); simpl; [|apply fills_only_refl].
  split; [done|]. eexists. split; [done|]. by repeat constructor.
Qed.

Lemma fill_fills_only key v name acc :
  fills_only (fst acc) (fst (fill key v name acc)).
Proof.
  destruct acc as [p filled]. unfold fill.
  pose proof (forceSet_fills_only key v p) as H.
  by destruct (forceSet key v p).
Qed.

Lemma fill_if_fills_only key v name acc :
  fills_only (fst acc) (fst (fill_if key v name acc)).
Proof.
  unfold fill_if. destruct (Js.truthy v); [apply fill_fills_only | apply fills_only_refl].
Qed.

Lemma apply_defaults_fills_only d p : fills_only p (fst (apply_defaults d p)).
Proof.
  unfold apply_defaults. cbv zeta.
  repeat (eapply fills_only_trans; [|apply fill_if_fills_only]).
  repeat (eapply fills_only_trans; [|apply fill_fills_only]).
  apply fills_only_refl.
Qed.

Lemma count_app f t1 t2 : count f (t1 ++ t2) = count f t1 + count f t2.
Proof. induction t1 as [|e t1 IH]; simpl; [done | rewrite IH; lia]. Qed.

Lemma count_fills f t :
  (forall e, is_fill e = true -> f e = false) ->
  Forall (fun e => is_fill e = true) t -> count f t = 0.
Proof.
  intros Hf. induction 1 as [|e t He _ IH]; simpl; [done|].
  by rewrite (Hf e He), IH.
Qed.

Lemma fill_not_gate e :
  is_fill e = true ->
  is_show e = false /\ is_hide e = false /\ is_fetch e = false
  /\ forall flag, is_set_disabled flag e = false.
Proof. by destruct e. Qed.

(** The trace of a settled call: effects of [forceSet], then the two
    calls of the [finally] block. *)
Lemma handle_resume_trace c s p :
  exists t, trace (fst (handle_resume c s p)) = trace p ++ t ++ [HideSpinner; SetDisabled false]
            /\ Forall (fun e => is_fill e = true) t.
Proof.
  unfold handle_resume. destruct s as [[d|]|].
  - destruct (apply_defaults_fills_only d p) as [_ (t & Ht & Hf)].
    destruct (apply_defaults d p) as [p' filled]. simpl in *.
    exists (t ++ [LogFilled filled]). split.
    + destruct (call_sp c); simpl; rewrite Ht, <- !app_assoc; done.
    + apply Forall_app. split; [done | by repeat constructor].
  - exists []. split; [|done]. destruct (call_sp c); simpl; by rewrite <- !app_assoc.
  - exists []. split; [|done]. destruct (call_sp c); simpl; by rewrite <- !app_assoc.
Qed.

Lemma handle_resume_spinner c s p :
  spinner (fst (handle_resume c s p))
  = if call_sp c then Some false else spinner p.
Proof.
  unfold handle_resume. destruct s as [[d|]|]; try by destruct (call_sp c).
  destruct (apply_defaults_fills_only d p) as [Hs _].
  destruct (apply_defaults d p) as [p' filled]. simpl in *.
  by destruct (call_sp c).
Qed.

Lemma setDisabled_lookup flag q key :
  fields (setDisabled flag q) !! key = set_disabled flag <$> fields q !! key.
Proof. simpl. by rewrite lookup_fmap. Qed.

Lemma setDisabled_flag flag q key f :
  fields (setDisabled flag q) !! key = Some f -> disabled f <> Some (negb flag).
Proof.
  rewrite setDisabled_lookup.
  destruct (fields q !! key) as [g|]; simpl; [|done].
  intros [= <-]. simpl. destruct (disabled g), flag; simpl; congruence.
Qed.

Lemma handle_resume_enabled c s p key f :
  fields (fst (handle_resume c s p)) !! key = Some f -> disabled f <> Some true.
Proof.
  unfold handle_resume.
  destruct s as [[d|]|]; [destruct (apply_defaults d p)|..];
    apply (setDisabled_flag false).
Qed.

(** What [handleClientChange] has done when it reaches its [await]. *)
Lemma handle_begin_fetching p p1 c :
  handle_begin p = (p1, Some c) ->
  Js.is_digits (Js.trim (client_value p)) = true
  /\ call_client c = Js.trim (client_value p)
  /\ call_sp c = client_has_parent p
  /\ trace p1 = trace p ++ [ShowSpinner; SetDisabled true;
                           Fetched (mini_url (Js.trim (client_value p)))]
  /\ spinner p1 = (if client_has_parent p then Some true else spinner p)
  /\ fields p1 = set_disabled true <$> fields p.
Proof.
  unfold handle_begin, ensureSpinnerFor.
  destruct (Js.is_digits (Js.trim (client_value p))); simpl; [|done].
  destruct (client_has_parent p), (spinner p) eqn:E; intros [= <- <-]; simpl;
    rewrite <- ?app_assoc, ?E; done.
Qed.

Lemma handle_begin_idle p :
  Js.is_digits (Js.trim (client_value p)) = false -> handle_begin p = (p, None).
Proof. unfold handle_begin. by intros ->. Qed.

(** Which controls are located never changes. *)
Lemma apply_defaults_dom d p : dom (fields (fst (apply_defaults d p))) = dom (fields p).
Proof.
  unfold apply_defaults. cbv zeta.
  rewrite !fill_if_fields, !fill_fields.
  repeat match goal with
         | |- context [if Js.truthy ?v then _ else _] => destruct (Js.truthy v)
         end; by rewrite ?dom_alter_L.
Qed.

Lemma handle_resume_dom c s p : dom (fields (fst (handle_resume c s p))) = dom (fields p).
Proof.
  unfold handle_resume. pose proof (apply_defaults_dom) as H.
  destruct s as [[d|]|]; [specialize (H d p); destruct (apply_defaults d p)|..];
    destruct (call_sp c); simpl in *; by rewrite dom_fmap_L.
Qed.

(** The [finally] block leaves every element in place, of its kind, and
    with its [disabled] property, if it has one, false. *)
Lemma handle_resume_flags c s p key f :
  fields p !! key = Some f ->
  exists f2, fields (fst (handle_resume c s p)) !! key = Some f2
             /\ kind f2 = kind f
             /\ disabled f2 = match disabled f with Some _ => Some false | None => None end.
Proof.
  intros Hf.
  assert (exists q, fields (fst (handle_resume c s p)) = set_disabled false <$> fields q
                    /\ element_of <$> fields q = element_of <$> fields p)
    as (q & -> & He).
  { unfold handle_resume. destruct s as [[d|]|].
    - pose proof (apply_defaults_elements d p) as He.
      destruct (apply_defaults d p) as [p' filled]. exists p'.
      by destruct (call_sp c).
    - exists p. by destruct (call_sp c).
    - exists p. by destruct (call_sp c). }
  destruct (lookup_elements _ _ key f He Hf) as (f' & Hf' & Hk & Hd).
  exists (set_disabled false f'). rewrite lookup_fmap, Hf'. simpl.
  split; [done|]. split; [done|].
  destruct (disabled f') as [b'|], (disabled f) as [b|]; try done.
  - destruct Hd as [Hd _]. by destruct Hd.
  - destruct Hd as [_ Hd]. by destruct Hd.
Qed.

(** C3.  Every call of [handleClientChange] that reaches its fetch has
    shown the spinner and disabled the located controls exactly once, and
    when the awaited defaults settle - with a record, with [null], or with
    a rejection - its [finally] block hides the spinner and re-enables the
    controls exactly once.  While the call waits, the spinner (there is one
    when the select has a parent element) is shown and every located
    control that has a [disabled] property is disabled, its value as it
    was; afterwards the spinner is hidden and every such control is
    enabled.  The located controls are the same throughout. *)
Theorem busy_gate_balance (p p1 : page) (c : call)
    (s : completion (option defaults)) :
  handle_begin p = (p1, Some c) ->
  let p2 := fst (handle_resume c s p1) in
  exists t1 t2,
    trace p1 = trace p ++ t1 /\ trace p2 = trace p1 ++ t2
    /\ count is_show t1 = 1 /\ count (is_set_disabled true) t1 = 1
    /\ count is_hide t1 = 0 /\ count (is_set_disabled false) t1 = 0
    /\ count is_hide t2 = 1 /\ count (is_set_disabled false) t2 = 1
    /\ count is_show t2 = 0 /\ count (is_set_disabled true) t2 = 0
    /\ (client_has_parent p = true -> spinner p1 = Some true)
    /\ (client_has_parent p = true -> spinner p2 = Some false)
    /\ dom (fields p1) = dom (fields p)
    /\ dom (fields p2) = dom (fields p)
    /\ (forall key f, fields p !! key = Some f ->
          exists f1 f2,
            fields p1 !! key = Some f1 /\ fields p2 !! key = Some f2
            /\ value f1 = value f
            /\ (is_Some (disabled f) ->
                  disabled f1 = Some true /\ disabled f2 = Some false)
            /\ (disabled f = None -> disabled f1 = None /\ disabled f2 = None)).
Proof.
  intros Hb p2.
  destruct (handle_begin_fetching _ _ _ Hb) as (_ & _ & Hsp & Ht1 & Hs1 & Hf1).
  destruct (handle_resume_trace c s p1) as (t & Ht2 & Hfill).
  eexists _, (t ++ [HideSpinner; SetDisabled false]).
  split; [exact Ht1|]. split; [exact Ht2|].
  assert (forall f, (forall e, is_fill e = true -> f e = false) ->
                    count f (t ++ [HideSpinner; SetDisabled false])
                    = count f [HideSpinner; SetDisabled false]) as Hc.
  { intros f Hf. by rewrite count_app, (count_fills f t Hf Hfill). }
  do 4 (split; [done|]).
  do 4 (split; [rewrite Hc; [done | intros e He; apply (fill_not_gate e He)]|]).
  split; [intros Hp; by rewrite Hs1, Hp|].
  split; [intros Hp; unfold p2; by rewrite handle_resume_spinner, Hsp, Hp|].
  split; [by rewrite Hf1, dom_fmap_L|].
  split; [unfold p2; by rewrite handle_resume_dom, Hf1, dom_fmap_L|].
  intros key f Hf.
  assert (fields p1 !! key = Some (set_disabled true f)) as H1
    by (by rewrite Hf1, lookup_fmap, Hf).
  destruct (handle_resume_flags c s p1 key _ H1) as (f2 & H2 & _ & Hd2).
  exists (set_disabled true f), f2. simpl in Hd2.
  split; [done|]. split; [done|]. split; [done|]. simpl.
  destruct (disabled f) as [b|]; simpl in *.
  - split; [done | by intros [=]].
  - split; [by intros [? [=]] | done].
Qed.

Lemma busy_gate_balance_witness :
  handle_begin (with_client_value "42" sample_page)
  = (fst (handle_begin (with_client_value "42" sample_page)),
     Some {| call_client := "42"; call_sp := true |})
  /\ exists t1 t2,
       trace (fst (handle_begin (with_client_value "42" sample_page))) = [] ++ t1
       /\ trace (fst (handle_resume {| call_client := "42"; call_sp := true |} Throw
                        (fst (handle_begin (with_client_value "42" sample_page)))))
          = trace (fst (handle_begin (with_client_value "42" sample_page))) ++ t2
       /\ count is_hide t2 = 1 /\ count (is_set_disabled false) t2 = 1
       /\ exists f1 f2,
            fields (fst (handle_begin (with_client_value "42" sample_page))) !! "pickup"
            = Some f1
            /\ fields (fst (handle_resume {| call_client := "42"; call_sp := true |} Throw
                             (fst (handle_begin (with_client_value "42" sample_page)))))
                 !! "pickup"
               = Some f2
            /\ disabled f1 = Some true /\ disabled f2 = Some false.
Proof.
  split; [reflexivity|].
  destruct (busy_gate_balance (with_client_value "42" sample_page) _
              {| call_client := "42"; call_sp := true |} Throw eq_refl)
    as (t1 & t2 & H1 & H2 & _ & _ & _ & _ & H3 & H4 & _ & _ & _ & _ & _ & _ & Hf).
  exists t1, t2. do 4 (split; [assumption|]).
  destruct (Hf "pickup" empty_control eq_refl) as (f1 & f2 & E1 & E2 & _ & Hd & _).
  exists f1, f2. split; [exact E1|]. split; [exact E2|].
  apply Hd. by exists false.
Defined.

(** With no call begun, nothing is fetched and nothing changes. *)
Lemma step_changed_idle m v :
  Js.is_digits (Js.trim v) = false ->
  step m (Changed v)
  = {| pg := with_client_value v (pg m); inflight := inflight m; issued := issued m |}.
Proof. intros H. unfold step. by rewrite handle_begin_idle. Qed.

Lemma handle_begin_numeric p :
  Js.is_digits (Js.trim (client_value p)) = true ->
  exists p1, handle_begin p
             = (p1, Some {| call_client := Js.trim (client_value p);
                            call_sp := client_has_parent p |})
             /\ fields p1 = set_disabled true <$> fields p.
Proof.
  intros H. unfold handle_begin. rewrite H. simpl.
  destruct (ensureSpinnerFor p) as [q sp] eqn:E.
  assert (sp = client_has_parent p /\ fields q = fields p) as [Hsp Hq].
  { unfold ensureSpinnerFor in E.
    destruct (client_has_parent p), (spinner p); by injection E as <- <-. }
  subst sp. eexists. split; [done|].
  destruct (client_has_parent p); simpl; congruence.
Qed.

Lemma handle_resume_elements c s p :
  element_of <$> fields (fst (handle_resume c s p)) = element_of <$> fields p.
Proof.
  unfold handle_resume. pose proof (apply_defaults_elements) as H.
  destruct s as [[d|]|]; [specialize (H d p); destruct (apply_defaults d p)|..];
    destruct (call_sp c); simpl in *;
    by rewrite fmap_elements by apply set_disabled_element.
Qed.

Lemma handle_resume_value c d p key :
  value_of key (fst (handle_resume c (Normal (Some d)) p))
  = value_of key (fst (apply_defaults d p)).
Proof.
  unfold handle_resume, value_of. destruct (apply_defaults d p) as [p' filled].
  destruct (call_sp c); simpl; rewrite lookup_fmap; by destruct (fields p' !! key).
Qed.

Lemma handle_begin_None p p1 : handle_begin p = (p1, None) -> p1 = p.
Proof.
  unfold handle_begin. destruct (Js.is_digits (Js.trim (client_value p))); simpl.
  - by destruct (ensureSpinnerFor p).
  - by intros [= <-].
Qed.

(** The balance of the busy gate is kept by every event: a change that
    starts a fetch enters once and adds a call in flight; an answer makes
    its call leave once and takes it out of flight, so that no call leaves
    twice. *)
Lemma step_balanced m e : balanced m -> balanced (step m e).
Proof.
  intros (Hs & Hd & Hfree). destruct e as [v|k o]; unfold step.
  - destruct (handle_begin (with_client_value v (pg m))) as [p1 [c|]] eqn:E.
    + destruct (handle_begin_fetching _ _ _ E) as (_ & _ & _ & Ht & _).
      simpl in Ht. unfold balanced. simpl. rewrite Ht, !count_app. simpl.
      rewrite map_size_insert_None by (by apply Hfree).
      repeat split; [lia | lia |].
      intros k Hk. rewrite lookup_insert_ne by lia. apply Hfree. lia.
    + apply handle_begin_None in E as ->. by repeat split.
  - destruct (inflight m !! k) as [c|] eqn:E; [|by repeat split].
    destruct (handle_resume_trace c (getClientDefaults o) (pg m)) as (t & Ht & Hf).
    unfold balanced. simpl. rewrite Ht, !count_app. simpl.
    rewrite !(count_fills _ t) by (done || intros e He; apply (fill_not_gate e He)).
    rewrite map_size_delete_Some by eauto.
    assert (size (inflight m) <> 0) as Hne
      by (apply (map_size_ne_0_lookup_2 _ k); eauto).
    repeat split; [lia | lia |].
    intros j Hj. destruct (decide (k = j)) as [->|];
      [apply lookup_delete_eq | rewrite lookup_delete_ne by done; by apply Hfree].
Qed.

Lemma run_balanced es m : balanced m -> balanced (run m es).
Proof.
  revert m. induction es as [|e es IH]; intros m Hm; [done|].
  apply IH. by apply step_balanced.
Qed.

Lemma start_balanced p : trace p = [] -> balanced (start p).
Proof. intros H. unfold balanced. simpl. by rewrite H. Qed.

(** C1, as stated, fails.  Client 1 is selected, then client 2, before
    the first fetch is answered.  The answer for client 2 arrives first and
    fills the pickup control; the answer for client 1 arrives after it and
    overwrites the control with client 1's address. *)
Lemma stale_response_applied :
  let m := run (start sample_page)
             [Changed "1"; Changed "2"; Settled 1 (Net.json_response pine)] in
  let m' := step m (Settled 0 (Net.json_response oak)) in
  client_value (pg m') = "2"
  /\ value_of "pickup" (pg m) = Some "2 Pine Rd"
  /\ value_of "pickup" (pg m') = Some "1 Oak Ave".
Proof. vm_compute. done. Qed.

(** C1, amended.  [handleClientChange] keeps no fetch epoch: a call applies
    the defaults it receives whenever they arrive.  With two changes A then
    B in flight, B answered first and A answered afterwards with defaults,
    these being primitive values, both calls have finished and the located
    pickup, dropoff, start and notes controls hold the text of A's
    defaults, each as an element of its kind stores that text. *)
Theorem last_response_wins (p : page) (a b : string)
    (oa ob : Net.fetch_result) (dA : defaults) :
  Js.is_digits (Js.trim a) = true ->
  Js.is_digits (Js.trim b) = true ->
  getClientDefaults oa = Normal (Some dA) ->
  plain_defaults dA = true ->
  let m := run (start p) [Changed a; Changed b; Settled 1 ob; Settled 0 oa] in
  inflight m = ∅
  /\ value_of "pickup" (pg m)
     = (fun f => stores (kind f) (text_of (pickup_address dA))) <$> fields p !! "pickup"
  /\ value_of "dropoff" (pg m)
     = (fun f => stores (kind f) (text_of (dropoff_address dA))) <$> fields p !! "dropoff"
  /\ value_of "start" (pg m)
     = (fun f => stores (kind f) (text_of (pickup_time dA))) <$> fields p !! "start"
  /\ value_of "notes" (pg m)
     = (fun f => stores (kind f) (text_of (notes dA))) <$> fields p !! "notes".
Proof.
  intros Ha Hb HdA _ m.
  destruct (handle_begin_numeric (with_client_value a p) Ha) as (pa & Ea & Fa).
  destruct (handle_begin_numeric (with_client_value b pa) Hb) as (pb & Eb & Fb).
  simpl in Ea, Eb, Fa, Fb.
  set (cA := {| call_client := Js.trim a; call_sp := client_has_parent p |}) in *.
  set (cB := {| call_client := Js.trim b; call_sp := client_has_parent pa |}) in *.
  set (pB := fst (handle_resume cB (getClientDefaults ob) pb)).
  set (pA := fst (handle_resume cA (Normal (Some dA)) pB)).
  assert (m = {| pg := pA; inflight := delete 0 (delete 1 (<[1:=cB]> (<[0:=cA]> ∅)));
                 issued := 2 |}) as ->.
  { unfold m, run, start. cbn [fold_left].
    assert (step {| pg := p; inflight := ∅; issued := 0 |} (Changed a)
            = {| pg := pa; inflight := <[0:=cA]> ∅; issued := 1 |}) as ->
      by (unfold step; simpl; by rewrite Ea).
    assert (step {| pg := pa; inflight := <[0:=cA]> ∅; issued := 1 |} (Changed b)
            = {| pg := pb; inflight := <[1:=cB]> (<[0:=cA]> ∅); issued := 2 |}) as ->
      by (unfold step; simpl; by rewrite Eb).
    unfold step. simpl. rewrite lookup_insert_eq. simpl.
    rewrite lookup_delete_ne, lookup_insert_ne, lookup_insert_eq by done.
    by rewrite HdA. }
  simpl.
  assert (element_of <$> fields pB = element_of <$> fields p) as Hel.
  { unfold pB. rewrite handle_resume_elements, Fb, Fa.
    by rewrite !fmap_elements by apply set_disabled_element. }
  split.
  { apply map_eq. intros k. rewrite lookup_empty.
    destruct (decide (k = 0)) as [->|]; [by rewrite lookup_delete_eq|].
    rewrite lookup_delete_ne by done.
    destruct (decide (k = 1)) as [->|]; [by rewrite lookup_delete_eq|].
    by rewrite lookup_delete_ne, !lookup_insert_ne by done. }
  unfold pA. rewrite !handle_resume_value.
  destruct (apply_defaults_values dA pB) as (H1 & H2 & H3 & H4).
  rewrite H1, H2, H3, H4.
  repeat split; by apply stores_elements.
Qed.

Lemma last_response_wins_witness :
  Js.is_digits (Js.trim "1") = true
  /\ Js.is_digits (Js.trim "2") = true
  /\ getClientDefaults (Net.json_response two_lines) = Normal (Some (normalize two_lines))
  /\ plain_defaults (normalize two_lines) = true
  /\ value_of "pickup"
       (pg (run (start sample_page)
              [Changed "1"; Changed "2"; Settled 1 (Net.json_response pine);
               Settled 0 (Net.json_response two_lines)]))
     = Some "12 Elm StFlat 2".
Proof.
  do 4 (split; [reflexivity|]).
  rewrite (proj1 (proj2
             (last_response_wins sample_page "1" "2" (Net.json_response two_lines)
                (Net.json_response pine) (normalize two_lines)
                eq_refl eq_refl eq_refl eq_refl))).
  reflexivity.
Defined.

(** C5, as stated, fails.  [getClientDefaults] reads the address fields
    from the top of the answer, so the wrapped body of the scenario gives
    empty defaults: every located control is set to the empty string, and
    the reported list names all three.  [onClientChange], which does read
    the wrapped body, fills the pickup address but never writes notes. *)
Lemma scenario_as_stated :
  let m := run (start AddScheduleSpinner.sample_page)
             [Changed "42"; Settled 0 (Net.json_response wrapped_body)] in
  let q := fst (AddScheduleDefaults.onClientChange (Net.json_response wrapped_body)
                  AddScheduleDefaults.sample_form) in
  value_of "pickup" (pg m) = Some ""
  /\ value_of "notes" (pg m) = Some ""
  /\ filled_reports (trace (pg m)) = [["pickup_address"; "dropoff_address"; "notes"]]
  /\ value <$> AddScheduleDefaults.controls q !! "id_pickup_address" = Some "12 Elm St"
  /\ value <$> AddScheduleDefaults.controls q !! "id_notes" = Some "".
Proof. vm_compute. done. Qed.

(** C5, amended.  When the mini endpoint answers client 42 with the bare
    record [{pickup_address: "12 Elm St", dropoff_address: "", notes: "VIP"}]
    and the form's located controls are pickup, dropoff and notes, then
    after [handleClientChange] pickup is "12 Elm St", dropoff is the empty
    string, notes is "VIP", and the reported list names every located
    control that [forceSet] wrote: pickup_address, dropoff_address, notes.
    The pickup and notes controls are elements that store these two texts
    as given, as every text input and textarea does; the controls may hold
    anything before. *)
Theorem scenario_flat (p : page) (f1 f2 f3 : field) :
  fields p = <["pickup" := f1]> (<["dropoff" := f2]> (<["notes" := f3]> ∅)) ->
  trace p = [] ->
  stored_as_given f1 "12 Elm St" ->
  stored_as_given f3 "VIP" ->
  let m := run (start p) [Changed "42"; Settled 0 (Net.json_response flat_body)] in
  value_of "pickup" (pg m) = Some "12 Elm St"
  /\ value_of "dropoff" (pg m) = Some ""
  /\ value_of "notes" (pg m) = Some "VIP"
  /\ filled_reports (trace (pg m)) = [["pickup_address"; "dropoff_address"; "notes"]].
Proof.
  destruct p as [cv hp sp fs tr]. cbn [fields trace]. intros -> -> H1 H3.
  pose proof (ControlFacts.stores_empty (kind f2)) as H2.
  destruct f1 as [v1 d1 k1], f2 as [v2 d2 k2], f3 as [v3 d3 k3].
  unfold stored_as_given in H1, H3. cbn [kind] in H1, H2, H3.
  destruct hp, sp as [[]|]; vm_compute in H1, H2, H3 |- *;
    rewrite H1, H2, H3; done.
Qed.

Lemma scenario_flat_witness :
  value_of "pickup"
    (pg (run (start AddScheduleSpinner.sample_page)
           [Changed "42"; Settled 0 (Net.json_response flat_body)]))
  = Some "12 Elm St"
  /\ filled_reports
       (trace (pg (run (start AddScheduleSpinner.sample_page)
                     [Changed "42"; Settled 0 (Net.json_response flat_body)])))
     = [["pickup_address"; "dropoff_address"; "notes"]].
Proof.
  destruct (scenario_flat AddScheduleSpinner.sample_page empty_control empty_control
              empty_control eq_refl eq_refl eq_refl eq_refl) as (H1 & _ & _ & H4).
  split; [exact H1 | exact H4].
Defined.

End SpinnerFacts.

(** ** The defaults wrappers and the fill-if-empty scripts *)

Module DefaultsFacts.

Lemma fill_if_empty_keeps id name c (fs : gmap string field) key f :
  fs !! key = Some f -> value f <> "" ->
  AddScheduleDefaults.fill_if_empty id name c fs !! key = Some f.
Proof.
  intros Hk Hv. unfold AddScheduleDefaults.fill_if_empty.
  destruct (fs !! id) as [el|] eqn:E; [|done].
  destruct (String.eqb_spec (value el) ""); [|done].
  destruct (decide (id = key)) as [->|]; [congruence|].
  by rewrite lookup_insert_ne.
Qed.

Lemma admin_fill_if_empty_keeps k c (fs : gmap string field) key f :
  fs !! key = Some f -> value f <> "" ->
  fst (AdminClientDefaults.fill_where_empty k c fs) !! key = Some f.
Proof.
  intros Hk Hv. unfold AdminClientDefaults.fill_where_empty.
  destruct (fs !! k) as [el|] eqn:E; [|done].
  destruct (String.eqb_spec (value el) ""); [|done].
  destruct (Js.get c k); [|done]. simpl.
  destruct (decide (k = key)) as [->|]; [congruence|].
  by rewrite lookup_insert_ne.
Qed.

Lemma admin_fill_all_keeps ks c (fs : gmap string field) key f :
  fs !! key = Some f -> value f <> "" ->
  fst (AdminClientDefaults.fill_all ks c fs) !! key = Some f.
Proof.
  revert fs. induction ks as [|k ks IH]; intros fs Hk Hv; simpl; [done|].
  pose proof (admin_fill_if_empty_keeps k c fs key f Hk Hv) as H.
  destruct (AdminClientDefaults.fill_where_empty k c fs) as [fs' [[]|]]; simpl in *;
    [by apply IH | done].
Qed.

(** C2, as stated, fails.  The operator has typed a pickup address; client
    42 is chosen and the mini endpoint answers: [forceSet] replaces what
    was typed. *)
Lemma forceSet_overwrites_edit :
  let m := AddScheduleSpinner.run
             (AddScheduleSpinner.start AddScheduleSpinner.edited_page)
             [AddScheduleSpinner.Changed "42";
              AddScheduleSpinner.Settled 0
                (Net.json_response AddScheduleSpinner.flat_body)] in
  AddScheduleSpinner.value_of "pickup" AddScheduleSpinner.edited_page
  = Some "7 Manual Rd"
  /\ AddScheduleSpinner.value_of "pickup" (AddScheduleSpinner.pg m)
     = Some "12 Elm St".
Proof. vm_compute. done. Qed.

(** C2, amended.  Fill-if-empty is the policy of [onClientChange] and of
    [applyClientDefaults]: whatever the defaults endpoint answers, a
    located control whose value is not the empty string is left exactly as
    it was.  [handleClientChange] writes with [forceSet], which does not
    look at the current value: the control then holds the text of the
    primitive value given, as an element of its kind stores that text. *)
Theorem fill_if_empty_keeps_edits (o : Net.fetch_result) (key : string) (f : field) :
  value f <> "" ->
  (forall p, AddScheduleDefaults.controls p !! key = Some f ->
     AddScheduleDefaults.controls (fst (AddScheduleDefaults.onClientChange o p)) !! key
     = Some f)
  /\ (forall r, AdminClientDefaults.fields r !! key = Some f ->
        AdminClientDefaults.fields
          (fst (AdminClientDefaults.applyClientDefaults_resume o r)) !! key
        = Some f)
  /\ (forall p v, Js.primitive v = true ->
        AddScheduleSpinner.fields p !! key = Some f ->
        AddScheduleSpinner.value_of key (fst (AddScheduleSpinner.forceSet key v p))
        = Some (stores (kind f) (AddScheduleSpinner.text_of v))).
Proof.
  intros Hv. split; [|split].
  - intros p Hk. unfold AddScheduleDefaults.onClientChange.
    destruct (AddScheduleDefaults.onClientChange_begin p); [|done].
    unfold AddScheduleDefaults.onClientChange_resume.
    destruct (AddScheduleDefaults.fetchClientDefaults _ o) as [c|]; [|done].
    destruct (Js.truthy c); [|done]. simpl.
    by repeat apply fill_if_empty_keeps.
  - intros r Hk. unfold AdminClientDefaults.applyClientDefaults_resume.
    assert (fst (AdminClientDefaults.apply_body o (AdminClientDefaults.fields r)) !! key
            = Some f) as H.
    { unfold AdminClientDefaults.apply_body.
      destruct (_ ← Net.fetch o; _) as [json|]; [|done].
      destruct (Js.get json "ok") as [ok|]; [|done].
      destruct (Js.truthy ok); [|done].
      destruct (Js.get json "client") as [c|]; [|done].
      by apply admin_fill_all_keeps. }
    by destruct (AdminClientDefaults.apply_body o (AdminClientDefaults.fields r)).
  - intros p v _ Hk. unfold AddScheduleSpinner.value_of.
    by rewrite SpinnerFacts.forceSet_fields, lookup_alter_eq, Hk.
Qed.

Lemma fill_if_empty_keeps_edits_witness :
  "7 Manual Rd" <> ""
  /\ value <$> AddScheduleDefaults.controls
       (fst (AddScheduleDefaults.onClientChange
               (Net.json_response AddScheduleDefaults.both_addresses)
               AddScheduleDefaults.edited_form)) !! "id_pickup_address"
     = Some "7 Manual Rd"
  /\ value <$> AddScheduleDefaults.controls
       (fst (AddScheduleDefaults.onClientChange
               (Net.json_response AddScheduleDefaults.both_addresses)
               AddScheduleDefaults.edited_form)) !! "id_dropoff_address"
     = Some "9 Quay Rd"
  /\ AddScheduleSpinner.value_of "pickup"
       (fst (AddScheduleSpinner.forceSet "pickup"
               (Js.prop AddScheduleSpinner.two_lines "pickup_address")
               AddScheduleSpinner.edited_page))
     = Some "12 Elm StFlat 2".
Proof.
  split; [discriminate|].
  split; [|split; [reflexivity|]].
  - rewrite (proj1 (fill_if_empty_keeps_edits
                      (Net.json_response AddScheduleDefaults.both_addresses)
                      "id_pickup_address"
                      (text_input "7 Manual Rd")
                      ltac:(discriminate))
               AddScheduleDefaults.edited_form eq_refl).
    reflexivity.
  - rewrite (proj2 (proj2 (fill_if_empty_keeps_edits
                             (Net.json_response AddScheduleDefaults.both_addresses)
                             "pickup"
                             (text_input "7 Manual Rd")
                             ltac:(discriminate)))
               AddScheduleSpinner.edited_page
               (Js.prop AddScheduleSpinner.two_lines "pickup_address") eq_refl eq_refl).
    reflexivity.
Defined.

(** [fetchJSON] catches whatever its body throws. *)
Lemma fetchJSON_total o : exists v, AddScheduleSpinner.fetchJSON o = Normal v.
Proof.
  unfold AddScheduleSpinner.fetchJSON. destruct o as [|r]; simpl; [by eexists|].
  destruct (Net.ok r), (Net.is_json r); simpl; try by eexists.
  unfold Net.json. destruct (Net.body r); simpl; by eexists.
Qed.

Lemma fetchJSON_failed o :
  Net.failed o = true -> AddScheduleSpinner.fetchJSON o = Normal Js.Null.
Proof.
  unfold AddScheduleSpinner.fetchJSON, Net.failed. destruct o as [|r]; simpl; [done|].
  destruct (Net.ok r), (Net.is_json r); simpl; try done.
  unfold Net.json. by destruct (Net.body r).
Qed.

(** C4, as stated, fails for every wrapper.  [getClientDefaults] does not
    look at an [ok] flag: the body [{ok: false}] gives a record of empty
    strings, not [null].  [fetchClientDefaults] has no [try]: a network
    error and an HTML page both make it reject. *)
Lemma wrappers_not_absent :
  AddScheduleSpinner.getClientDefaults
    (Net.json_response (Js.Obj [("ok", Js.Bool false)]))
  = Normal (Some (AddScheduleSpinner.normalize (Js.Obj [("ok", Js.Bool false)])))
  /\ AddScheduleDefaults.fetchClientDefaults (Js.Str "42") Net.NetworkError = Throw
  /\ AddScheduleDefaults.fetchClientDefaults (Js.Str "42") Net.html_response = Throw.
Proof. vm_compute. done. Qed.

(** C4, amended.  [getClientDefaults] never throws: a network error, a
    status outside 200-299, a content type without application/json and a
    body that does not parse all give [null]; a parsed body is not checked
    for an [ok] flag, a truthy one is normalized into a defaults record and
    a falsy one gives [null].  [fetchClientDefaults] gives [null] for a
    status outside 200-299 and for a parsed body whose [ok] is falsy or
    missing, and the body's [client] when [ok] is truthy.
    [applyClientDefaults] catches every exception, and leaves the row as it
    was when the fetch or the parsing of the body fails. *)
Theorem defaults_wrappers (o : Net.fetch_result) :
  (exists r, AddScheduleSpinner.getClientDefaults o = Normal r)
  /\ (Net.failed o = true -> AddScheduleSpinner.getClientDefaults o = Normal None)
  /\ (forall r d, o = Net.Responded r -> Net.failed o = false -> Net.body r = Some d ->
        AddScheduleSpinner.getClientDefaults o
        = Normal (if Js.truthy d then Some (AddScheduleSpinner.normalize d) else None))
  /\ (forall id r, o = Net.Responded r -> Net.ok r = false ->
        AddScheduleDefaults.fetchClientDefaults id o = Normal Js.Null)
  /\ (forall id r json okv, o = Net.Responded r -> Js.truthy id = true ->
        Net.ok r = true -> Net.body r = Some json -> Js.get json "ok" = Normal okv ->
        AddScheduleDefaults.fetchClientDefaults id o
        = Normal (if Js.truthy okv then Js.prop json "client" else Js.Null))
  /\ (forall row, snd (AdminClientDefaults.applyClientDefaults_resume o row) = Normal tt)
  /\ (forall row, (resp ← Net.fetch o; Net.json resp) = Throw ->
        fst (AdminClientDefaults.applyClientDefaults_resume o row) = row).
Proof.
  repeat split.
  - unfold AddScheduleSpinner.getClientDefaults.
    destruct (fetchJSON_total o) as [v ->]. simpl. destruct (Js.truthy v); by eexists.
  - intros H. unfold AddScheduleSpinner.getClientDefaults. by rewrite fetchJSON_failed.
  - intros r d -> Hf Hb. unfold AddScheduleSpinner.getClientDefaults,
      AddScheduleSpinner.fetchJSON. simpl in *. unfold Net.json. rewrite Hb in *.
    destruct (Net.ok r), (Net.is_json r); simpl in *; try done.
    by destruct (Js.truthy d).
  - intros id r -> Hok. unfold AddScheduleDefaults.fetchClientDefaults. simpl.
    rewrite Hok. by destruct (Js.truthy id).
  - intros id r json okv -> Hid Hok Hb Hg.
    unfold AddScheduleDefaults.fetchClientDefaults. simpl.
    rewrite Hid, Hok. simpl. unfold Net.json. rewrite Hb. simpl. rewrite Hg. simpl.
    destruct (Js.truthy okv); [|done]. by destruct json.
  - intros row. unfold AdminClientDefaults.applyClientDefaults_resume.
    by destruct (AdminClientDefaults.apply_body o (AdminClientDefaults.fields row)).
  - intros row H. unfold AdminClientDefaults.applyClientDefaults_resume,
      AdminClientDefaults.apply_body. rewrite H. by destruct row.
Qed.

Lemma defaults_wrappers_witness :
  Net.failed Net.html_response = true
  /\ AddScheduleSpinner.getClientDefaults Net.html_response = Normal None.
Proof.
  split; [reflexivity|].
  exact (proj1 (proj2 (defaults_wrappers Net.html_response)) eq_refl).
Defined.

End DefaultsFacts.

(** ** The delegated admin listener *)

Module AdminListenerFacts.
Import AutofillClientAdmin.

Lemma find_index_shape (f g : string -> bool) (l l' : list element) :
  shape l = shape l' ->
  find_index (fun e => f (el_id e) || g (el_name e)) l
  = find_index (fun e => f (el_id e) || g (el_name e)) l'.
Proof.
  revert l'. induction l as [|e l IH]; intros [|e' l'] H; try done.
  injection H as Hi Hn Hl. simpl. rewrite Hi, Hn. by rewrite (IH l' Hl).
Qed.

Lemma findField_shape l l' sufs : shape l = shape l' -> findField l sufs = findField l' sufs.
Proof.
  intros H. induction sufs as [|suf sufs IH]; simpl; [done|].
  pose proof (find_index_shape (Js.ends_with suf) (fun _ => false) l l' H) as H1.
  pose proof (find_index_shape (fun _ => false) (Js.ends_with suf) l l' H) as H2.
  simpl in H1, H2.
  assert (forall m, find_index (fun e => Js.ends_with suf (el_id e)) m
                    = find_index (fun e => Js.ends_with suf (el_id e) || false) m) as E1.
  { intros m. induction m as [|x m IHm]; simpl; [done|]. by rewrite orb_false_r, IHm. }
  rewrite !E1, H1, H2, IH. done.
Qed.

Lemma set_shape el v s : shape (elements (set el v s)) = shape (elements s).
Proof.
  unfold set. destruct el as [i|]; [|done].
  destruct (elements s !! i) as [e|] eqn:E; [|done]. simpl.
  revert i E. induction (elements s) as [|x l IH]; intros [|i] E; simpl in *; try done.
  - by injection E as ->.
  - f_equal. by apply IH.
Qed.

(** Nor does it change what kind of element one is. *)
Lemma set_kinds el v s : el_kind <$> elements (set el v s) = el_kind <$> elements s.
Proof.
  unfold set. destruct el as [i|]; [|done].
  destruct (elements s !! i) as [e|] eqn:E; [|done]. simpl.
  revert i E. induction (elements s) as [|x l IH]; intros [|i] E; simpl in *; try done.
  - by injection E as ->.
  - f_equal. by apply IH.
Qed.

Lemma kind_at (l l' : list element) i e e' :
  el_kind <$> l' = el_kind <$> l ->
  l !! i = Some e -> l' !! i = Some e' -> el_kind e' = el_kind e.
Proof.
  intros H He He'. apply (f_equal (fun k => k !! i)) in H.
  rewrite !list_lookup_fmap, He, He' in H. by injection H.
Qed.

Lemma listener_resume_kinds o s :
  el_kind <$> elements (listener_resume o s) = el_kind <$> elements s.
Proof.
  unfold listener_resume. destruct (fetchMini o) as [d|]; [|done].
  destruct (Js.truthy d); [|done]. cbn [negb]. cbv iota zeta. by rewrite !set_kinds.
Qed.

Lemma listener_resume_shape o s : shape (elements (listener_resume o s)) = shape (elements s).
Proof.
  unfold listener_resume. destruct (fetchMini o) as [d|]; [|done].
  destruct (Js.truthy d); [|done]. cbn [negb]. cbv iota zeta. by rewrite !set_shape.
Qed.

Lemma find_index_lookup {A} (f : A -> bool) (l : list A) i :
  find_index f l = Some i -> is_Some (l !! i).
Proof.
  revert i. induction l as [|x l IH]; intros i; simpl; [done|].
  destruct (f x); [intros [= <-]; by eexists|].
  destruct (find_index f l) as [j|]; simpl; [|done].
  intros [= <-]. by apply IH.
Qed.

Lemma findField_lookup l sufs i : findField l sufs = Some i -> is_Some (l !! i).
Proof.
  induction sufs as [|suf sufs IH]; simpl; [done|].
  destruct (find_index _ l) as [j|] eqn:E1; [intros [= <-]; by eapply find_index_lookup|].
  destruct (find_index _ l) as [j|] eqn:E2 in |- *;
    [intros [= <-]; by eapply find_index_lookup | done].
Qed.

(** The delegated listener keeps no epoch either: the notes element holds
    the notes of whichever answer was applied last, as it stores them. *)
Lemma listener_last_response_wins s oA oB dA i e :
  fetchMini oA = Normal dA -> Js.truthy dA = true ->
  findField (elements s) ["notes"] = Some i ->
  elements s !! i = Some e ->
  el_value <$> elements (listener_resume oA (listener_resume oB s)) !! i
  = Some (stores (el_kind e) (Js.to_string (Js.or (Js.prop dA "notes") (Js.Str "")))).
Proof.
  intros HA HdA Hi Hei.
  pose proof (listener_resume_shape oB s) as Hsh.
  pose proof (listener_resume_kinds oB s) as Hk.
  set (sB := listener_resume oB s) in *.
  unfold listener_resume. rewrite HA, HdA. simpl negb. cbv iota zeta.
  set (s3 := set _ _ (set _ _ (set _ _ sB))).
  assert (shape (elements s3) = shape (elements s)) as H3
    by (unfold s3; by rewrite !set_shape).
  assert (el_kind <$> elements s3 = el_kind <$> elements s) as K3
    by (unfold s3; by rewrite !set_kinds).
  rewrite (findField_shape _ _ ["notes"] H3), Hi.
  assert (is_Some (elements s3 !! i)) as [e3 He].
  { rewrite <- (findField_shape _ _ ["notes"] H3) in Hi. by eapply findField_lookup. }
  unfold set. rewrite He. simpl.
  rewrite list_lookup_insert_eq by (by eapply lookup_lt_Some). simpl.
  by rewrite (kind_at _ _ i e e3 K3 Hei He).
Qed.

End AdminListenerFacts.

(** ** The type-ahead: search and rebuilding the options *)

Module TypeaheadFacts.
Import ClientTypeahead.

Lemma option_for_item r : is_item r = true -> option_for r = Normal (item_option r).
Proof.
  destruct r as [| | | | |xs|props]; try done. unfold is_item, option_for, item_option.
  simpl. destruct (Js.assoc "name" props) as [| | | |n| |]; try done.
  simpl. unfold Js.or. simpl. by destruct (String.eqb n "").
Qed.

Lemma add_options_items rs s i :
  Forall (fun r => is_item r = true) rs -> selected s = Some i ->
  add_options rs s
  = ({| options := options s ++ map item_option rs; selected := Some i;
        dispatched := dispatched s |}, Normal tt).
Proof.
  intros Hrs. revert s. induction Hrs as [|r rs Hr _ IH]; intros s Hs; simpl.
  - rewrite app_nil_r. destruct s. simpl in *. by subst.
  - rewrite (option_for_item r Hr), IH; simpl; [|by rewrite Hs].
    by rewrite <- app_assoc.
Qed.



(** What [rebuildOptions] leaves behind for a page of search results. *)
Lemma rebuildOptions_items s rs :
  Forall (fun r => is_item r = true) rs ->
  rebuildOptions s (Js.Arr rs) Js.Undefined
  = (dispatchEvent "change"
       (dispatchEvent "input"
          (restore (Js.Str (select_value s))
             {| options := placeholder :: map item_option rs; selected := Some 0;
                dispatched := dispatched s |})),
     Normal tt).
Proof.
  intros Hrs. unfold rebuildOptions. simpl.
  by rewrite (add_options_items rs (appendChild placeholder (clear s)) 0 Hrs eq_refl).
Qed.







(** [run] hands the results of a JSON answer to [rebuildOptions]. *)
Lemma run_resume_rebuilds q rs more w :
  sel (run_resume q (Net.json_response
                       (Js.Obj [("results", Js.Arr rs); ("has_more", more)])) w)
  = fst (rebuildOptions (sel w) (Js.Arr rs) Js.Undefined).
Proof.
  unfold run_resume. simpl.
  by destruct (rebuildOptions (sel w) (Js.Arr rs) Js.Undefined) as [s' [[]|]].
Qed.

(** C8, as stated, fails.  [searchClients] has no [try]: a network error
    makes it reject, and so does a body that does not parse under a JSON
    content type. *)
Lemma search_rejects :
  searchClients Net.NetworkError = Throw
  /\ searchClients Net.broken_json_response = Throw.
Proof. by vm_compute. Qed.

(** C8, amended.  For a status outside 200-299 and for a content type
    without application/json, [searchClients] returns the empty page.  On a
    network error it rejects; its caller [run] catches whatever it throws,
    shows "Search failed" and leaves the select as it was. *)
Theorem search_failures (o : Net.fetch_result) (q : string) (w : widget) :
  (forall r, o = Net.Responded r -> Net.ok r = false \/ Net.is_json r = false ->
     searchClients o = Normal empty_page)
  /\ (o = Net.NetworkError -> searchClients o = Throw)
  /\ (searchClients o = Throw ->
      run_resume q o w
      = {| search_value := search_value w; status_line := SearchFailed;
           sel := sel w |}).
Proof.
  split; [|split].
  - intros r -> H. unfold searchClients. simpl.
    destruct (Net.ok r); simpl; [|done].
    destruct H as [H | H]; [done | by rewrite H].
  - by intros ->.
  - intros H. unfold run_resume. by rewrite H.
Qed.

Lemma search_failures_witness :
  Net.ok {| Net.status := 302; Net.content_type := None; Net.body := None |} = false
  /\ searchClients
       (Net.Responded {| Net.status := 302; Net.content_type := None; Net.body := None |})
     = Normal empty_page.
Proof.
  split; [reflexivity|].
  exact (proj1 (search_failures
                  (Net.Responded {| Net.status := 302; Net.content_type := None;
                                    Net.body := None |})
                  "" {| search_value := ""; status_line := Blank; sel := sample_select |})
           _ eq_refl (or_introl eq_refl)).
Defined.

End TypeaheadFacts.

(** ** Binding rows and reading the client id *)

Module BindingFacts.
Import AdminClientDefaults.

Lemma bindAll_rows rows : fst (bindAll rows) = map (more_listeners 1) rows.
Proof.
  induction rows as [|r rows IH]; simpl; [done|].
  destruct (bindAll rows) as [rest fs]. simpl in *. rewrite IH.
  unfold more_listeners. simpl. by rewrite Nat.add_1_r.
Qed.

Lemma bindAll_times_rows n rows : bindAll_times n rows = map (more_listeners n) rows.
Proof.
  revert rows. induction n as [|n IH]; intros rows; simpl.
  - induction rows as [|r rows IHr]; simpl; [done|]. rewrite <- IHr.
    destruct r. unfold more_listeners. simpl. by rewrite Nat.add_0_r.
  - rewrite IH, bindAll_rows, map_map. apply map_ext. intros r.
    unfold more_listeners. simpl. f_equal. lia.
Qed.

Lemma currentClientId_nonempty r cid : currentClientId r = Some cid -> cid <> "".
Proof.
  unfold currentClientId. intros H Hc. subst cid.
  destruct (autoHidden r) as [h|], (clientPkInput r) as [i|];
    repeat match type of H with
           | context [String.eqb ?a ""] => destruct (String.eqb_spec a ""); simpl in H
           | context [Js.is_digits ?a] => destruct (Js.is_digits a); simpl in H
           end; congruence.
Qed.

(** C9, as stated, fails.  A row is bound at DOMContentLoaded and again
    when [formset:added] runs [bindAll]: it then has two listeners, and one
    change fetches the defaults twice. *)
Lemma rebinding_doubles_fetches :
  let rows := bindAll_times 2 [sample_row] in
  map listeners rows = [2]
  /\ concat (map (dispatch_change true) rows)
     = [admin_defaults_url "5"; admin_defaults_url "5"].
Proof. by vm_compute. Qed.

(** C9, amended.  [bindRow] has no bound marker: every pass of [bindAll]
    registers one more change listener on every matched row and leaves the
    row's inputs and controls alone, so after [n] passes a row has [n]
    more listeners; one change on a row with a current client id fetches
    the defaults once per listener. *)
Theorem each_pass_adds_a_listener (n : nat) (rows : list row) :
  bindAll_times n rows = map (more_listeners n) rows
  /\ forall r cid, currentClientId r = Some cid ->
       dispatch_change true (more_listeners n r)
       = replicate (listeners r + n) (admin_defaults_url cid).
Proof.
  split; [apply bindAll_times_rows|].
  intros r cid Hc. unfold dispatch_change, on_change, applyClientDefaults_begin.
  change (currentClientId (more_listeners n r)) with (currentClientId r).
  rewrite Hc. destruct (String.eqb_spec cid "") as [He|_].
  - by apply currentClientId_nonempty in Hc.
  - cbn [listeners more_listeners].
    induction (listeners r + n) as [|k IH]; simpl; [done | by rewrite IH].
Qed.

Lemma each_pass_adds_a_listener_witness :
  currentClientId sample_row = Some "5"
  /\ listeners sample_row = 0
  /\ bindAll_times 3 [sample_row] = [more_listeners 3 sample_row]
  /\ dispatch_change true (more_listeners 3 sample_row)
     = [admin_defaults_url "5"; admin_defaults_url "5"; admin_defaults_url "5"].
Proof.
  split; [reflexivity|]. split; [reflexivity|].
  destruct (each_pass_adds_a_listener 3 [sample_row]) as [H1 H2].
  split; [exact H1 | exact (H2 sample_row "5" eq_refl)].
Defined.

End BindingFacts.

(** ** Values that are not client ids *)

Module SelectionFacts.

(** C7, as stated, fails.  [handleClientChange] trims the value before its
    numeric test, so " 42", which is not a string of digits, starts a fetch
    for client 42; and [currentClientId] returns a non-empty value of the
    hidden input without any numeric test, so "abc" starts a fetch too. *)
Lemma non_numeric_values_fetch :
  Js.is_digits " 42" = false
  /\ AddScheduleSpinner.handle_begin
       (AddScheduleSpinner.with_client_value " 42" AddScheduleSpinner.sample_page)
     = (AddScheduleSpinner.log [AddScheduleSpinner.Fetched "/service/api/client/42/mini/"]
          (AddScheduleSpinner.setDisabled true
             (AddScheduleSpinner.showSpinner true
                (AddScheduleSpinner.with_spinner (Some false)
                   (AddScheduleSpinner.with_client_value " 42"
                      AddScheduleSpinner.sample_page)))),
        Some {| AddScheduleSpinner.call_client := "42";
                AddScheduleSpinner.call_sp := true |})
  /\ Js.is_digits "abc" = false
  /\ AdminClientDefaults.dispatch_change true AdminClientDefaults.hidden_row
     = ["/service/admin/ajax/client/abc/defaults/"].
Proof. by vm_compute. Qed.

(** C7, amended.  [handleClientChange] tests the trimmed value: when that
    is empty or not all digits, the call returns before anything is shown,
    disabled, fetched or written.  [onClientChange] and the delegated admin
    listener test the value as it is, and fetch nothing when it is empty or
    not all digits.  In [bindRow], when no hidden client input holds a
    value and the client input's value is empty or not all digits, there is
    no current client id and a change fetches nothing. *)
Theorem non_numeric_is_no_client :
  (forall p, Js.is_digits (Js.trim (AddScheduleSpinner.client_value p)) = false ->
     AddScheduleSpinner.handle_begin p = (p, None))
  /\ (forall m v, Js.is_digits (Js.trim v) = false ->
        let m' := AddScheduleSpinner.step m (AddScheduleSpinner.Changed v) in
        AddScheduleSpinner.inflight m' = AddScheduleSpinner.inflight m
        /\ AddScheduleSpinner.fields (AddScheduleSpinner.pg m')
           = AddScheduleSpinner.fields (AddScheduleSpinner.pg m)
        /\ AddScheduleSpinner.trace (AddScheduleSpinner.pg m')
           = AddScheduleSpinner.trace (AddScheduleSpinner.pg m))
  /\ (forall p o, (forall v, AddScheduleDefaults.client p = Some v -> Js.is_digits v = false) ->
        AddScheduleDefaults.onClientChange_begin p = None
        /\ AddScheduleDefaults.onClientChange o p = (p, Normal tt))
  /\ (forall t, Js.is_digits (AutofillClientAdmin.t_value t) = false ->
        AutofillClientAdmin.listener_begin t = None)
  /\ (forall r matches,
        (forall h, AdminClientDefaults.autoHidden r = Some h ->
                   AdminClientDefaults.in_value h = "") ->
        (forall i, AdminClientDefaults.clientPkInput r = Some i ->
                   Js.is_digits (AdminClientDefaults.in_value i) = false) ->
        AdminClientDefaults.currentClientId r = None
        /\ AdminClientDefaults.dispatch_change matches r = []).
Proof.
  split; [exact SpinnerFacts.handle_begin_idle|].
  split; [intros m v H; by rewrite SpinnerFacts.step_changed_idle|].
  split.
  { intros p o H.
    assert (AddScheduleDefaults.onClientChange_begin p = None) as Hb.
    { unfold AddScheduleDefaults.onClientChange_begin, AddScheduleDefaults.clientId_of.
      destruct (AddScheduleDefaults.client p) as [v|]; [|done].
      rewrite (H v eq_refl). by rewrite andb_false_r. }
    split; [done|]. unfold AddScheduleDefaults.onClientChange. by rewrite Hb. }
  split.
  { intros t H. unfold AutofillClientAdmin.listener_begin. rewrite H.
    by destruct (negb (AutofillClientAdmin.isClient t)). }
  intros r matches Hh Hi.
  assert (AdminClientDefaults.currentClientId r = None) as Hc.
  { unfold AdminClientDefaults.currentClientId.
    destruct (AdminClientDefaults.autoHidden r) as [h|];
      [rewrite (Hh h eq_refl); simpl|];
      (destruct (AdminClientDefaults.clientPkInput r) as [i|]; [|done];
       rewrite (Hi i eq_refl); by rewrite andb_false_r). }
  split; [done|].
  unfold AdminClientDefaults.dispatch_change, AdminClientDefaults.on_change.
  rewrite Hc. destruct matches; induction (AdminClientDefaults.listeners r); done.
Qed.

Lemma non_numeric_is_no_client_witness :
  Js.is_digits (Js.trim "n/a") = false
  /\ AddScheduleSpinner.handle_begin
       (AddScheduleSpinner.with_client_value "n/a" AddScheduleSpinner.sample_page)
     = (AddScheduleSpinner.with_client_value "n/a" AddScheduleSpinner.sample_page, None).
Proof.
  split; [reflexivity|].
  exact (proj1 non_numeric_is_no_client
           (AddScheduleSpinner.with_client_value "n/a" AddScheduleSpinner.sample_page)
           eq_refl).
Defined.

End SelectionFacts.

(** ** More on [handleClientChange]: what is written, reported and fetched *)

Module SpinnerMore.
Import AddScheduleSpinner PageEvents.

Lemma located_alter (f : field -> field) k (fs : gmap string field) key :
  located (alter f k fs) key = located fs key.
Proof.
  unfold located. rewrite lookup_alter. case_decide; [subst|done].
  by destruct (fs !! key).
Qed.

Lemma fill_snd key v name acc :
  snd (fill key v name acc)
  = snd acc ++ name_if (located (fields (fst acc)) key) name.
Proof.
  destruct acc as [p filled]. unfold fill, forceSet, located. simpl.
  destruct (fields p !! key); simpl; [done | by rewrite app_nil_r].
Qed.

Lemma fill_located key v name acc k :
  located (fields (fst (fill key v name acc))) k = located (fields (fst acc)) k.
Proof. by rewrite SpinnerFacts.fill_fields, located_alter. Qed.

Lemma fill_if_snd key v name acc :
  snd (fill_if key v name acc)
  = snd acc ++ name_if (Js.truthy v && located (fields (fst acc)) key) name.
Proof.
  unfold fill_if. destruct (Js.truthy v); simpl; [apply fill_snd | by rewrite app_nil_r].
Qed.

Lemma fill_if_located key v name acc k :
  located (fields (fst (fill_if key v name acc))) k = located (fields (fst acc)) k.
Proof. unfold fill_if. destruct (Js.truthy v); [apply fill_located | done]. Qed.

Lemma apply_defaults_names d p :
  snd (apply_defaults d p) = names_written d (fields p).
Proof.
  unfold apply_defaults, names_written. cbv zeta.
  rewrite !fill_if_snd, !fill_snd, !fill_if_located, !fill_located. simpl.
  by rewrite <- !app_assoc.
Qed.

Lemma fill_emitted key v name acc :
  length (emitted (trace (fst (fill key v name acc))))
  = length (emitted (trace (fst acc)))
    + 2 * length (name_if (located (fields (fst acc)) key) name).
Proof.
  destruct acc as [p filled]. unfold fill, forceSet, located. simpl.
  destruct (fields p !! key); simpl; [|lia].
  induction (trace p) as [|e t IH]; simpl; [done|]. destruct e; simpl; lia.
Qed.

Lemma fill_if_emitted key v name acc :
  length (emitted (trace (fst (fill_if key v name acc))))
  = length (emitted (trace (fst acc)))
    + 2 * length (name_if (Js.truthy v && located (fields (fst acc)) key) name).
Proof.
  unfold fill_if. destruct (Js.truthy v); simpl; [apply fill_emitted | lia].
Qed.

Lemma apply_defaults_emitted d p :
  length (emitted (trace (fst (apply_defaults d p))))
  = length (emitted (trace p)) + 2 * length (names_written d (fields p)).
Proof.
  unfold apply_defaults, names_written. cbv zeta.
  rewrite !fill_if_emitted, !fill_emitted, !fill_if_located, !fill_located. simpl.
  rewrite !length_app. lia.
Qed.

Lemma filled_reports_app t1 t2 :
  filled_reports (t1 ++ t2) = filled_reports t1 ++ filled_reports t2.
Proof.
  induction t1 as [|e t1 IH]; simpl; [done|]. destruct e; simpl; by rewrite ?IH.
Qed.

Lemma emitted_app t1 t2 : emitted (t1 ++ t2) = emitted t1 ++ emitted t2.
Proof.
  induction t1 as [|e t1 IH]; simpl; [done|]. destruct e; simpl; by rewrite ?IH.
Qed.

Lemma forceSet_reports key v p :
  filled_reports (trace (fst (forceSet key v p))) = filled_reports (trace p).
Proof.
  unfold forceSet. destruct (fields p !! key); simpl; [|done].
  rewrite filled_reports_app. simpl. by rewrite app_nil_r.
Qed.

Lemma fill_reports key v name acc :
  filled_reports (trace (fst (fill key v name acc))) = filled_reports (trace (fst acc)).
Proof.
  destruct acc as [p filled]. unfold fill.
  pose proof (forceSet_reports key v p) as H. by destruct (forceSet key v p).
Qed.

Lemma fill_if_reports key v name acc :
  filled_reports (trace (fst (fill_if key v name acc)))
  = filled_reports (trace (fst acc)).
Proof. unfold fill_if. destruct (Js.truthy v); [apply fill_reports | done]. Qed.

Lemma apply_defaults_reports d p :
  filled_reports (trace (fst (apply_defaults d p))) = filled_reports (trace p).
Proof.
  unfold apply_defaults. cbv zeta. by rewrite !fill_if_reports, !fill_reports.
Qed.

(** X1.  When [handleClientChange] receives a defaults record, the one
    list it reports names, in the order of the source, every located
    control among pickup, dropoff, start and notes - whether or not its
    value changed - and a located city or state control only when its
    default is truthy; and two events, [forceSet]'s input and change, have
    been dispatched for each control named. *)
Theorem filled_names_the_located (c : call) (d : defaults) (p : page) :
  let p' := fst (handle_resume c (Normal (Some d)) p) in
  filled_reports (trace p')
  = filled_reports (trace p) ++ [names_written d (fields p)]
  /\ length (emitted (trace p'))
     = length (emitted (trace p)) + 2 * length (names_written d (fields p)).
Proof.
  unfold handle_resume.
  pose proof (apply_defaults_names d p) as Hn.
  pose proof (apply_defaults_reports d p) as Hr.
  pose proof (apply_defaults_emitted d p) as He.
  destruct (apply_defaults d p) as [q filled]. simpl in Hn, Hr, He. subst filled.
  destruct (call_sp c); simpl; rewrite !filled_reports_app, !emitted_app, !length_app;
    simpl; rewrite Hr, He, !app_nil_r; split; [done | lia | done | lia].
Qed.

Lemma truthy_or_empty v : Js.truthy (or_empty v) = Js.truthy v.
Proof. unfold or_empty, Js.or. by destruct (Js.truthy v) eqn:E. Qed.

Lemma text_of_or_empty_falsy v : Js.truthy v = false -> text_of (or_empty v) = "".
Proof. unfold or_empty, Js.or. by intros ->. Qed.

Ltac skip_other_fills :=
  repeat first
    [ rewrite SpinnerFacts.lookup_fill_if_ne by done
    | rewrite SpinnerFacts.lookup_fill_ne by done ].

(** A city or state control is not written when its default is falsy. *)
Lemma apply_defaults_keeps_cities d p :
  let p' := fst (apply_defaults d p) in
  (Js.truthy (pickup_city d) = false -> value_of "pCity" p' = value_of "pCity" p)
  /\ (Js.truthy (pickup_state d) = false -> value_of "pState" p' = value_of "pState" p)
  /\ (Js.truthy (dropoff_city d) = false -> value_of "dCity" p' = value_of "dCity" p)
  /\ (Js.truthy (dropoff_state d) = false -> value_of "dState" p' = value_of "dState" p).
Proof.
  unfold value_of, apply_defaults. cbv zeta.
  repeat split; intros H; skip_other_fills; rewrite SpinnerFacts.fill_if_fields, H;
    by skip_other_fills.
Qed.

(** X2.  An answer of the mini endpoint that lacks a field, or has it
    empty, is not treated alike for all controls: the located pickup,
    dropoff and notes controls are emptied, whatever they held, while a
    city or state control keeps its value. *)
Theorem missing_defaults (c : call) (body : Js.value) (p : page) :
  let p' := fst (handle_resume c (Normal (Some (normalize body))) p) in
  (Js.truthy (Js.prop body "pickup_address") = false ->
     value_of "pickup" p' = (fun _ => "") <$> fields p !! "pickup")
  /\ (Js.truthy (Js.prop body "dropoff_address") = false ->
        value_of "dropoff" p' = (fun _ => "") <$> fields p !! "dropoff")
  /\ (Js.truthy (Js.prop body "notes") = false ->
        value_of "notes" p' = (fun _ => "") <$> fields p !! "notes")
  /\ (Js.truthy (Js.prop body "pickup_city") = false ->
        value_of "pCity" p' = value_of "pCity" p)
  /\ (Js.truthy (Js.prop body "pickup_state") = false ->
        value_of "pState" p' = value_of "pState" p)
  /\ (Js.truthy (Js.prop body "dropoff_city") = false ->
        value_of "dCity" p' = value_of "dCity" p)
  /\ (Js.truthy (Js.prop body "dropoff_state") = false ->
        value_of "dState" p' = value_of "dState" p).
Proof.
  cbv zeta. rewrite !SpinnerFacts.handle_resume_value.
  destruct (SpinnerFacts.apply_defaults_values (normalize body) p) as (H1 & H2 & _ & H4).
  destruct (apply_defaults_keeps_cities (normalize body) p) as (K1 & K2 & K3 & K4).
  rewrite H1, H2, H4. simpl.
  split; [intros H; rewrite (text_of_or_empty_falsy _ H);
          apply ControlFacts.stores_empty_lookup|].
  split; [intros H; rewrite (text_of_or_empty_falsy _ H);
          apply ControlFacts.stores_empty_lookup|].
  split; [intros H; rewrite (text_of_or_empty_falsy _ H);
          apply ControlFacts.stores_empty_lookup|].
  split; [intros H; apply K1; simpl; by rewrite truthy_or_empty|].
  split; [intros H; apply K2; simpl; by rewrite truthy_or_empty|].
  split; [intros H; apply K3; simpl; by rewrite truthy_or_empty|].
  intros H; apply K4; simpl; by rewrite truthy_or_empty.
Qed.

Lemma missing_defaults_witness :
  Js.truthy (Js.prop oak "notes") = false
  /\ Js.truthy (Js.prop oak "pickup_city") = false
  /\ value_of "notes"
       (fst (handle_resume {| call_client := "1"; call_sp := true |}
               (Normal (Some (normalize oak))) city_page))
     = Some ""
  /\ value_of "pCity"
       (fst (handle_resume {| call_client := "1"; call_sp := true |}
               (Normal (Some (normalize oak))) city_page))
     = Some "Leeds".
Proof.
  split; [reflexivity|]. split; [reflexivity|].
  destruct (missing_defaults {| call_client := "1"; call_sp := true |} oak city_page)
    as (_ & _ & H3 & H4 & _).
  split; [exact (H3 eq_refl) | exact (H4 eq_refl)].
Defined.

Lemma handle_begin_parent p p1 c :
  handle_begin p = (p1, Some c) -> client_has_parent p1 = client_has_parent p.
Proof.
  unfold handle_begin, ensureSpinnerFor.
  destruct (Js.is_digits (Js.trim (client_value p))); simpl; [|done].
  destruct (client_has_parent p) eqn:E1, (spinner p) eqn:E2; intros [= <- <-]; done.
Qed.

(** Two changes, both with an id, then the answer to the first. *)
Lemma run_first_answer p a b o :
  Js.is_digits (Js.trim a) = true -> Js.is_digits (Js.trim b) = true ->
  exists pb,
    run (start p) [Changed a; Changed b; Settled 0 o]
    = {| pg := fst (handle_resume
                      {| call_client := Js.trim a; call_sp := client_has_parent p |}
                      (getClientDefaults o) pb);
         inflight := delete 0
                       (<[1 := {| call_client := Js.trim b; call_sp := client_has_parent p |}]>
                          (<[0 := {| call_client := Js.trim a;
                                     call_sp := client_has_parent p |}]> ∅));
         issued := 2 |}.
Proof.
  intros Ha Hb.
  destruct (SpinnerFacts.handle_begin_numeric (with_client_value a p) Ha) as (pa & Ea & Fa).
  destruct (SpinnerFacts.handle_begin_numeric (with_client_value b pa) Hb) as (pb & Eb & Fb).
  assert (client_has_parent pa = client_has_parent p) as Hp
    by exact (handle_begin_parent _ _ _ Ea).
  cbn [client_value client_has_parent with_client_value] in Ea, Eb. rewrite Hp in Eb.
  exists pb. unfold run, start. cbn [fold_left].
  assert (step {| pg := p; inflight := ∅; issued := 0 |} (Changed a)
          = {| pg := pa;
               inflight := <[0 := {| call_client := Js.trim a;
                                     call_sp := client_has_parent p |}]> ∅;
               issued := 1 |}) as ->
    by (unfold step; cbn [pg inflight issued]; by rewrite Ea).
  assert (forall fl, step {| pg := pa; inflight := fl; issued := 1 |} (Changed b)
          = {| pg := pb;
               inflight := <[1 := {| call_client := Js.trim b;
                                     call_sp := client_has_parent p |}]> fl;
               issued := 2 |}) as ->
    by (intros fl; unfold step; cbn [pg inflight issued]; by rewrite Eb).
  unfold step. cbn [pg inflight issued].
  by rewrite lookup_insert_ne, lookup_insert_eq by done.
Qed.

(** X3.  The busy gate is not counted.  With two calls in flight, the
    answer to the first one re-enables every located control and hides the
    spinner although the second call is still waiting for its answer. *)
Theorem first_answer_reopens_the_form (p : page) (a b : string) (o : Net.fetch_result) :
  Js.is_digits (Js.trim a) = true ->
  Js.is_digits (Js.trim b) = true ->
  let m := run (start p) [Changed a; Changed b; Settled 0 o] in
  inflight m !! 1 = Some {| call_client := Js.trim b; call_sp := client_has_parent p |}
  /\ (forall key f, fields (pg m) !! key = Some f -> disabled f <> Some true)
  /\ (client_has_parent p = true -> spinner (pg m) = Some false).
Proof.
  intros Ha Hb m. destruct (run_first_answer p a b o Ha Hb) as (pb & Hm).
  unfold m. rewrite Hm. cbn [pg inflight].
  split; [by rewrite lookup_delete_ne, lookup_insert_eq by done|].
  split; [apply SpinnerFacts.handle_resume_enabled|].
  intros Hp. by rewrite SpinnerFacts.handle_resume_spinner, Hp.
Qed.

Lemma first_answer_reopens_the_form_witness :
  Js.is_digits (Js.trim "1") = true
  /\ Js.is_digits (Js.trim "2") = true
  /\ inflight (run (start sample_page)
                 [Changed "1"; Changed "2"; Settled 0 Net.NetworkError]) !! 1
     = Some {| call_client := "2"; call_sp := true |}
  /\ spinner (pg (run (start sample_page)
                    [Changed "1"; Changed "2"; Settled 0 Net.NetworkError]))
     = Some false.
Proof.
  split; [reflexivity|]. split; [reflexivity|].
  destruct (first_answer_reopens_the_form sample_page "1" "2" Net.NetworkError
              eq_refl eq_refl) as (H1 & _ & H3).
  split; [exact H1 | exact (H3 eq_refl)].
Defined.

(** X4.  When the defaults are absent - the fetch failed, or the body is
    falsy - the call writes no control, dispatches no event and reports no
    list; it only leaves the gate. *)
Theorem absent_defaults_write_nothing (m : machine) (k : nat) (c : call)
    (o : Net.fetch_result) :
  inflight m !! k = Some c ->
  getClientDefaults o = Normal None ->
  let m' := step m (Settled k o) in
  (forall key, value_of key (pg m') = value_of key (pg m))
  /\ emitted (trace (pg m')) = emitted (trace (pg m))
  /\ filled_reports (trace (pg m')) = filled_reports (trace (pg m))
  /\ trace (pg m') = trace (pg m) ++ [HideSpinner; SetDisabled false]
  /\ inflight m' !! k = None.
Proof.
  intros Hk Ho. unfold step. rewrite Hk, Ho. cbn [pg inflight]. unfold handle_resume.
  split.
  { intros key. unfold value_of.
    destruct (call_sp c); simpl; rewrite lookup_fmap; by destruct (fields (pg m) !! key). }
  destruct (call_sp c); simpl; rewrite <- !app_assoc, ?emitted_app, ?filled_reports_app;
    simpl; rewrite ?app_nil_r, lookup_delete_eq; done.
Qed.

Lemma absent_defaults_write_nothing_witness :
  getClientDefaults Net.html_response = Normal None
  /\ value_of "pickup"
       (pg (step (step (start edited_page) (Changed "42")) (Settled 0 Net.html_response)))
     = Some "7 Manual Rd".
Proof.
  split; [reflexivity|].
  destruct (absent_defaults_write_nothing (step (start edited_page) (Changed "42")) 0
              {| call_client := "42"; call_sp := true |} Net.html_response
              eq_refl eq_refl) as (H & _).
  rewrite (H "pickup"). reflexivity.
Defined.

Lemma fills_are_no_fetch t :
  Forall (fun e => is_fill e = true) t -> Forall numeric_fetch t.
Proof. intros H. eapply Forall_impl; [exact H|]. by intros []. Qed.

(** X5.  Whatever the order of changes and answers, every call that was
    started has fetched exactly once, and every URL fetched is the mini
    endpoint's for an id made of decimal digits only. *)
Theorem every_fetch_is_numeric (p : page) (es : list event) :
  trace p = [] ->
  let m := run (start p) es in
  count is_fetch (trace (pg m)) = issued m
  /\ Forall numeric_fetch (trace (pg m)).
Proof.
  intros Hp m.
  assert (forall es m0,
            count is_fetch (trace (pg m0)) = issued m0
            /\ Forall numeric_fetch (trace (pg m0)) ->
            count is_fetch (trace (pg (run m0 es))) = issued (run m0 es)
            /\ Forall numeric_fetch (trace (pg (run m0 es)))) as Hrun.
  { clear. induction es as [|e es IH]; intros m0 [Hc Hf]; [done|].
    apply IH. destruct e as [v|k o]; unfold step.
    - destruct (handle_begin (with_client_value v (pg m0))) as [p1 [c|]] eqn:E.
      + destruct (SpinnerFacts.handle_begin_fetching _ _ _ E) as (Hd & _ & _ & Ht & _).
        cbn [pg issued]. rewrite Ht, SpinnerFacts.count_app. simpl.
        split; [lia|]. apply Forall_app. split; [done|].
        repeat constructor. by eexists.
      + by apply SpinnerFacts.handle_begin_None in E as ->.
    - destruct (inflight m0 !! k) as [c|]; [|done].
      destruct (SpinnerFacts.handle_resume_trace c (getClientDefaults o) (pg m0))
        as (t & Ht & Hfill).
      cbn [pg issued]. rewrite Ht, !SpinnerFacts.count_app.
      rewrite (SpinnerFacts.count_fills is_fetch t)
        by (done || intros e He; apply (SpinnerFacts.fill_not_gate e He)).
      simpl. split; [lia|].
      apply Forall_app. split; [done|]. apply Forall_app.
      split; [by apply fills_are_no_fetch | by repeat constructor]. }
  apply Hrun. simpl. by rewrite Hp.
Qed.

Lemma every_fetch_is_numeric_witness :
  trace sample_page = []
  /\ count is_fetch
       (trace (pg (run (start sample_page)
                     [Changed "7"; Changed "seven"; Changed " 8 ";
                      Settled 0 Net.NetworkError])))
     = 2.
Proof.
  split; [reflexivity|].
  rewrite (proj1 (every_fetch_is_numeric sample_page
                    [Changed "7"; Changed "seven"; Changed " 8 ";
                     Settled 0 Net.NetworkError] eq_refl)).
  reflexivity.
Defined.






(** X22.  Opening a stored schedule for editing: [ready] finds the select
    holding a client id and runs [onChange] at once, and when the answer
    brings defaults, primitive values, the located pickup, dropoff, start
    and notes controls take them, each holding the text of its default as
    an element of its kind stores that text - what was stored in those
    controls is replaced. *)
Theorem prefill_replaces_stored_values (p : page) (o : Net.fetch_result) (d : defaults) :
  Js.is_digits (Js.trim (client_value p)) = true ->
  getClientDefaults o = Normal (Some d) ->
  plain_defaults d = true ->
  let m := step (prefill (start p)) (Settled 0 o) in
  value_of "pickup" (pg m)
  = (fun f => stores (kind f) (text_of (pickup_address d))) <$> fields p !! "pickup"
  /\ value_of "dropoff" (pg m)
     = (fun f => stores (kind f) (text_of (dropoff_address d))) <$> fields p !! "dropoff"
  /\ value_of "start" (pg m)
     = (fun f => stores (kind f) (text_of (pickup_time d))) <$> fields p !! "start"
  /\ value_of "notes" (pg m)
     = (fun f => stores (kind f) (text_of (notes d))) <$> fields p !! "notes".
Proof.
  intros Hv Hd _ m.
  assert (client_value p <> "") as Hne by (by intros E; rewrite E in Hv).
  assert (with_client_value (client_value p) p = p) as Hid by (by destruct p).
  destruct (SpinnerFacts.handle_begin_numeric p Hv) as (p1 & E1 & F1).
  set (c := {| call_client := _; call_sp := _ |}) in E1.
  assert (m = {| pg := fst (handle_resume c (Normal (Some d)) p1);
                 inflight := delete 0 (<[0 := c]> ∅); issued := 1 |}) as ->.
  { unfold m, prefill, start. cbn [pg].
    destruct (String.eqb_spec (client_value p) ""); [done|].
    unfold step at 2. cbn [pg inflight issued]. rewrite Hid, E1.
    unfold step. cbn [pg inflight issued]. by rewrite lookup_insert_eq, Hd. }
  cbn [pg]. rewrite !SpinnerFacts.handle_resume_value.
  destruct (SpinnerFacts.apply_defaults_values d p1) as (H1 & H2 & H3 & H4).
  rewrite H1, H2, H3, H4.
  assert (element_of <$> fields p1 = element_of <$> fields p) as Hel
    by (rewrite F1; apply SpinnerFacts.fmap_elements, SpinnerFacts.set_disabled_element).
  repeat split; by apply SpinnerFacts.stores_elements.
Qed.

Lemma prefill_replaces_stored_values_witness :
  Js.is_digits (Js.trim (client_value stored_page)) = true
  /\ getClientDefaults (Net.json_response flat_body) = Normal (Some (normalize flat_body))
  /\ plain_defaults (normalize flat_body) = true
  /\ value_of "pickup" stored_page = Some "7 Manual Rd"
  /\ value_of "pickup"
       (pg (step (prefill (start stored_page)) (Settled 0 (Net.json_response flat_body))))
     = Some "12 Elm St".
Proof.
  do 4 (split; [reflexivity|]).
  rewrite (proj1 (prefill_replaces_stored_values stored_page (Net.json_response flat_body)
                    (normalize flat_body) eq_refl eq_refl eq_refl)).
  reflexivity.
Defined.

Lemma forceSet_plain key v p :
  Forall plain_event (trace p) -> Forall plain_event (trace (fst (forceSet key v p))).
Proof.
  intros H. unfold forceSet. destruct (fields p !! key); simpl; [|done].
  apply Forall_app. split; [done|].
  constructor; [by left|]. constructor; [by right|]. constructor.
Qed.

Lemma fill_plain key v name acc :
  Forall plain_event (trace (fst acc)) ->
  Forall plain_event (trace (fst (fill key v name acc))).
Proof.
  destruct acc as [p filled]. unfold fill. intros H.
  pose proof (forceSet_plain key v p H) as H'. by destruct (forceSet key v p).
Qed.

Lemma fill_if_plain key v name acc :
  Forall plain_event (trace (fst acc)) ->
  Forall plain_event (trace (fst (fill_if key v name acc))).
Proof. unfold fill_if. destruct (Js.truthy v); [apply fill_plain | done]. Qed.

Lemma handle_resume_plain c s p :
  Forall plain_event (trace p) -> Forall plain_event (trace (fst (handle_resume c s p))).
Proof.
  intros H. unfold handle_resume.
  assert (forall q, Forall plain_event (trace q) ->
            Forall plain_event (trace (setDisabled false (hideSpinner (call_sp c) q)))) as Hfin.
  { intros q Hq. destruct (call_sp c); simpl; rewrite <- app_assoc;
      (apply Forall_app; split; [done | by repeat constructor]). }
  destruct s as [[d|]|]; [|by apply Hfin..].
  assert (Forall plain_event (trace (fst (apply_defaults d p)))) as Ha.
  { unfold apply_defaults. cbv zeta.
    do 4 apply fill_if_plain. do 4 apply fill_plain. done. }
  destruct (apply_defaults d p) as [q filled]. apply Hfin. simpl in *.
  apply Forall_app. split; [done | by repeat constructor].
Qed.

(** X23.  The only events [handleClientChange] ever dispatches are input
    and change events: never the "autofill:done" event that the scroll
    helper at the end of the file waits for. *)
Theorem only_input_and_change (p : page) (es : list event) :
  trace p = [] ->
  Forall (fun e => snd e = "input" \/ snd e = "change")
    (emitted (trace (pg (run (start p) es)))).
Proof.
  intros Hp.
  assert (forall t, Forall plain_event t ->
            Forall (fun e => snd e = "input" \/ snd e = "change") (emitted t)) as Hem.
  { induction 1 as [|e t He _ IH]; simpl; [done|].
    destruct e; simpl; try done. by constructor. }
  apply Hem.
  assert (forall es m0, Forall plain_event (trace (pg m0)) ->
            Forall plain_event (trace (pg (run m0 es)))) as Hrun.
  { clear. induction es as [|e es IH]; intros m0 H0; [done|].
    apply IH. destruct e as [v|k o]; unfold step.
    - destruct (handle_begin (with_client_value v (pg m0))) as [p1 [c|]] eqn:E.
      + destruct (SpinnerFacts.handle_begin_fetching _ _ _ E) as (_ & _ & _ & Ht & _).
        cbn [pg]. rewrite Ht. apply Forall_app. split; [done | by repeat constructor].
      + by apply SpinnerFacts.handle_begin_None in E as ->.
    - destruct (inflight m0 !! k) as [c|]; [|done]. by apply handle_resume_plain. }
  apply Hrun. simpl. by rewrite Hp.
Qed.

Lemma only_input_and_change_witness :
  trace sample_page = []
  /\ emitted (trace (pg (run (start sample_page)
                           [Changed "1"; Settled 0 (Net.json_response oak)])))
     = [("pickup", "input"); ("pickup", "change"); ("dropoff", "input");
        ("dropoff", "change"); ("notes", "input"); ("notes", "change")].
Proof.
  split; [reflexivity|].
  pose proof (only_input_and_change sample_page
                [Changed "1"; Settled 0 (Net.json_response oak)] eq_refl) as H.
  reflexivity.
Defined.

(** X21.  The busy gate over a whole session: whatever the order of
    changes and answers, the spinner has been shown once for every time it
    was hidden and once more for every call still waiting for its answer,
    and the same holds for disabling and re-enabling the controls. *)
Theorem gate_balance_over_runs (p : page) (es : list event) :
  trace p = [] ->
  let m := run (start p) es in
  count is_show (trace (pg m)) = count is_hide (trace (pg m)) + size (inflight m)
  /\ count (is_set_disabled true) (trace (pg m))
     = count (is_set_disabled false) (trace (pg m)) + size (inflight m).
Proof.
  intros Hp m.
  destruct (SpinnerFacts.run_balanced es (start p) (SpinnerFacts.start_balanced p Hp))
    as (H1 & H2 & _).
  by split.
Qed.

Lemma gate_balance_over_runs_witness :
  trace sample_page = []
  /\ count is_show
       (trace (pg (run (start sample_page)
                     [Changed "1"; Changed "2"; Settled 1 Net.NetworkError])))
     = 2
  /\ count is_hide
       (trace (pg (run (start sample_page)
                     [Changed "1"; Changed "2"; Settled 1 Net.NetworkError])))
     = 1.
Proof.
  split; [reflexivity|].
  pose proof (proj1 (gate_balance_over_runs sample_page
                       [Changed "1"; Changed "2"; Settled 1 Net.NetworkError] eq_refl))
    as H.
  split; [rewrite H|]; reflexivity.
Defined.

End SpinnerMore.

(** ** More on the fill-if-empty scripts and their suggestions *)

Module DefaultsMore.
Import FillSpec.

Lemma fill_if_empty_eq id name c (fs : gmap string field) :
  AddScheduleDefaults.fill_if_empty id name c fs !! id
  = (fun el => if String.eqb (value el) ""
               then set_value (default_text c name) el else el) <$> fs !! id.
Proof.
  unfold AddScheduleDefaults.fill_if_empty, default_text.
  destruct (fs !! id) as [el|] eqn:E; simpl; [|done].
  destruct (String.eqb (value el) ""); [by rewrite lookup_insert_eq | done].
Qed.

Lemma fill_if_empty_ne id name c (fs : gmap string field) key :
  id <> key -> AddScheduleDefaults.fill_if_empty id name c fs !! key = fs !! key.
Proof.
  intros Hne. unfold AddScheduleDefaults.fill_if_empty.
  destruct (fs !! id) as [el|]; [|done].
  destruct (String.eqb (value el) ""); [by rewrite lookup_insert_ne | done].
Qed.

Ltac fill_lookups :=
  repeat first [ rewrite fill_if_empty_ne by done | rewrite fill_if_empty_eq ].

(** X7.  When [onClientChange] receives a client record whose addresses,
    cities and states are primitive values, every located address, city
    and state control that is empty is assigned the record's value for it
    (the empty string when the record has none) and then holds what an
    element of its kind stores of that text, its [disabled] flag as it was;
    and nothing else on the form is written: not the notes, not the times,
    not the client. *)
Theorem onClientChange_fills_the_empty (p : AddScheduleDefaults.form)
    (o : Net.fetch_result) (c : Js.value) :
  AddScheduleDefaults.onClientChange_begin p <> None ->
  AddScheduleDefaults.fetchClientDefaults (AddScheduleDefaults.clientId_of p) o = Normal c ->
  Js.truthy c = true ->
  let p' := fst (AddScheduleDefaults.onClientChange o p) in
  (Js.primitive_at c (map snd form_fields) = true ->
   forall id name f, In (id, name) form_fields ->
     AddScheduleDefaults.controls p !! id = Some f -> value f = "" ->
     AddScheduleDefaults.controls p' !! id
     = Some {| value := stores (kind f) (default_text c name);
               disabled := disabled f; kind := kind f |})
  /\ (forall key, ~ In key (map fst form_fields) ->
        AddScheduleDefaults.controls p' !! key = AddScheduleDefaults.controls p !! key)
  /\ AddScheduleDefaults.client p' = AddScheduleDefaults.client p.
Proof.
  intros Hb Hc Ht. unfold AddScheduleDefaults.onClientChange.
  destruct (AddScheduleDefaults.onClientChange_begin p); [|done].
  unfold AddScheduleDefaults.onClientChange_resume. rewrite Hc, Ht. cbn [negb fst].
  cbn [AddScheduleDefaults.controls AddScheduleDefaults.client].
  split; [|split; [|done]].
  - intros _ id name f Hin Hl Hv. simpl in Hin.
    destruct Hin as [H|[H|[H|[H|[H|[H|[]]]]]]]; injection H as <- <-;
      fill_lookups; rewrite Hl; simpl; by rewrite Hv.
  - intros key Hn. simpl in Hn.
    rewrite !fill_if_empty_ne by (intros E; apply Hn; rewrite <- E; auto 10). done.
Qed.

Lemma onClientChange_fills_the_empty_witness :
  AddScheduleDefaults.onClientChange_begin AddScheduleDefaults.state_form <> None
  /\ value <$> AddScheduleDefaults.controls
       (fst (AddScheduleDefaults.onClientChange
               (Net.json_response AddScheduleDefaults.unlisted_state)
               AddScheduleDefaults.state_form)) !! "id_pickup_address"
     = Some "12 Elm StFlat 2"
  /\ value <$> AddScheduleDefaults.controls
       (fst (AddScheduleDefaults.onClientChange
               (Net.json_response AddScheduleDefaults.unlisted_state)
               AddScheduleDefaults.state_form)) !! "id_pickup_state"
     = Some "".
Proof.
  split; [discriminate|].
  destruct (onClientChange_fills_the_empty AddScheduleDefaults.state_form
              (Net.json_response AddScheduleDefaults.unlisted_state)
              (Js.prop AddScheduleDefaults.unlisted_state "client")
              ltac:(discriminate) eq_refl eq_refl)
    as (H & _).
  rewrite (H eq_refl "id_pickup_address" "pickup_address" _
             (or_introl eq_refl) eq_refl eq_refl).
  rewrite (H eq_refl "id_pickup_state" "pickup_state" _
             (or_intror (or_intror (or_introl eq_refl))) eq_refl eq_refl).
  split; reflexivity.
Defined.

Lemma filled_or_kept_refl f : filled_or_kept f f.
Proof. split; [done | by left]. Qed.

Lemma filled_or_kept_trans f g h :
  filled_or_kept f g -> filled_or_kept g h -> filled_or_kept f h.
Proof.
  intros [Hd1 [Hv1|Hv1]] [Hd2 [Hv2|Hv2]]; split; try congruence;
    [left | right | right | right]; congruence.
Qed.

Lemma admin_fill_step k c (fs : gmap string field) key :
  option_Forall2 filled_or_kept (fs !! key)
    (fst (AdminClientDefaults.fill_where_empty k c fs) !! key).
Proof.
  assert (option_Forall2 filled_or_kept (fs !! key) (fs !! key)) as Hrefl
    by (destruct (fs !! key); constructor; apply filled_or_kept_refl).
  unfold AdminClientDefaults.fill_where_empty.
  destruct (fs !! k) as [el|] eqn:E; [|done].
  destruct (String.eqb_spec (value el) "") as [He|]; [|done].
  destruct (Js.get c k); [|done]. simpl.
  destruct (decide (k = key)) as [<-|Hne].
  - rewrite lookup_insert_eq, E. constructor. split; [done | by right].
  - by rewrite lookup_insert_ne.
Qed.

Lemma admin_fill_all_steps ks c (fs : gmap string field) key :
  option_Forall2 filled_or_kept (fs !! key)
    (fst (AdminClientDefaults.fill_all ks c fs) !! key).
Proof.
  revert fs. induction ks as [|k ks IH]; intros fs; simpl.
  - destruct (fs !! key); constructor. apply filled_or_kept_refl.
  - pose proof (admin_fill_step k c fs key) as H1.
    destruct (AdminClientDefaults.fill_where_empty k c fs) as [fs' [[]|]]; simpl in *;
      [|done].
    specialize (IH fs'). destruct H1 as [f g Hfg|]; [|done].
    inversion IH as [g' h Hgh Hg Hh|]; subst. constructor.
    by eapply filled_or_kept_trans.
Qed.

Lemma admin_fill_all_frame ks c (fs : gmap string field) key :
  ~ In key ks -> fst (AdminClientDefaults.fill_all ks c fs) !! key = fs !! key.
Proof.
  revert fs. induction ks as [|k ks IH]; intros fs Hn; simpl; [done|].
  assert (fst (AdminClientDefaults.fill_where_empty k c fs) !! key = fs !! key) as H1.
  { unfold AdminClientDefaults.fill_where_empty.
    destruct (fs !! k) as [el|]; [|done].
    destruct (String.eqb (value el) ""); [|done].
    destruct (Js.get c k); [|done]. simpl.
    rewrite lookup_insert_ne; [done|]. intros ->. apply Hn. by left. }
  destruct (AdminClientDefaults.fill_where_empty k c fs) as [fs' [[]|]]; simpl in *;
    [|done].
  rewrite IH; [done|]. intros H. apply Hn. by right.
Qed.

(** X8.  Whatever the defaults endpoint answers, [applyClientDefaults]
    leaves every located control either as it was or, when it was empty,
    with a new value; it never changes a [disabled] flag, never writes a
    control other than the six address, city and state controls, and leaves
    the row's inputs and listeners alone. *)
Theorem applyClientDefaults_fills_or_keeps (o : Net.fetch_result)
    (r : AdminClientDefaults.row) :
  let r' := fst (AdminClientDefaults.applyClientDefaults_resume o r) in
  AdminClientDefaults.inputs r' = AdminClientDefaults.inputs r
  /\ AdminClientDefaults.listeners r' = AdminClientDefaults.listeners r
  /\ (forall key, option_Forall2 filled_or_kept
                    (AdminClientDefaults.fields r !! key)
                    (AdminClientDefaults.fields r' !! key))
  /\ (forall key, ~ In key AdminClientDefaults.keys ->
        AdminClientDefaults.fields r' !! key = AdminClientDefaults.fields r !! key).
Proof.
  unfold AdminClientDefaults.applyClientDefaults_resume.
  assert (forall key,
            option_Forall2 filled_or_kept (AdminClientDefaults.fields r !! key)
              (fst (AdminClientDefaults.apply_body o (AdminClientDefaults.fields r)) !! key)
            /\ (~ In key AdminClientDefaults.keys ->
                fst (AdminClientDefaults.apply_body o (AdminClientDefaults.fields r)) !! key
                = AdminClientDefaults.fields r !! key)) as H.
  { intros key.
    assert (option_Forall2 filled_or_kept (AdminClientDefaults.fields r !! key)
              (AdminClientDefaults.fields r !! key)) as Hrefl
      by (destruct (_ !! key); constructor; apply filled_or_kept_refl).
    unfold AdminClientDefaults.apply_body.
    destruct (_ ← Net.fetch o; _) as [json|]; [|done].
    destruct (Js.get json "ok") as [ok|]; [|done].
    destruct (Js.truthy ok); [|done].
    destruct (Js.get json "client") as [c|]; [|done].
    split; [apply admin_fill_all_steps | apply admin_fill_all_frame]. }
  destruct (AdminClientDefaults.apply_body o (AdminClientDefaults.fields r)) as [fs res].
  simpl in *. split; [done|]. split; [done|].
  split; intros key; by destruct (H key).
Qed.

Lemma admin_fill_all_nullish ks c (fs : gmap string field) :
  Js.nullish c = true -> fst (AdminClientDefaults.fill_all ks c fs) = fs.
Proof.
  intros Hc. induction ks as [|k ks IH]; simpl; [done|].
  unfold AdminClientDefaults.fill_where_empty.
  destruct (fs !! k) as [el|]; [|done].
  destruct (String.eqb (value el) ""); [|done].
  destruct c; simpl in *; done.
Qed.

(** X9.  An answer that says [ok] and carries no client record changes
    nothing: reading the first default throws inside the [try], and the
    [catch] swallows it. *)
Theorem ok_without_client_is_ignored (r : AdminClientDefaults.row) (json okv : Js.value) :
  Js.get json "ok" = Normal okv -> Js.truthy okv = true ->
  Js.nullish (Js.prop json "client") = true ->
  AdminClientDefaults.applyClientDefaults_resume (Net.json_response json) r
  = (r, Normal tt).
Proof.
  intros Hok Ht Hc.
  unfold AdminClientDefaults.applyClientDefaults_resume.
  assert (forall fs,
            AdminClientDefaults.apply_body (Net.json_response json) fs
            = AdminClientDefaults.fill_all AdminClientDefaults.keys
                (Js.prop json "client") fs) as ->.
  { intros fs. unfold AdminClientDefaults.apply_body, Net.json_response.
    cbn [Net.fetch Net.json Net.body mbind completion_bind]. rewrite Hok, Ht.
    cbn [negb]. by destruct json. }
  pose proof (admin_fill_all_nullish AdminClientDefaults.keys _
                (AdminClientDefaults.fields r) Hc) as H.
  destruct (AdminClientDefaults.fill_all _ _ _) as [fs res]. simpl in H. subst fs.
  by destruct r.
Qed.

Lemma ok_without_client_is_ignored_witness :
  Js.get (Js.Obj [("ok", Js.Bool true)]) "ok" = Normal (Js.Bool true)
  /\ AdminClientDefaults.applyClientDefaults_resume
       (Net.json_response (Js.Obj [("ok", Js.Bool true)])) typed_row
     = (typed_row, Normal tt).
Proof.
  split; [reflexivity|].
  exact (ok_without_client_is_ignored typed_row (Js.Obj [("ok", Js.Bool true)])
           (Js.Bool true) eq_refl eq_refl eq_refl).
Defined.

(** X10.  [fetchClientDefaults], asked for a client, rejects in exactly
    these cases: the fetch fails on the network; or the status is in
    200-299 and the body either does not parse as JSON or is [null]. *)
Theorem fetchClientDefaults_rejects (id : Js.value) (o : Net.fetch_result) :
  Js.truthy id = true ->
  (AddScheduleDefaults.fetchClientDefaults id o = Throw
   <-> o = Net.NetworkError
       \/ exists r, o = Net.Responded r /\ Net.ok r = true
                    /\ (Net.body r = None
                        \/ exists j, Net.body r = Some j /\ Js.nullish j = true)).
Proof.
  intros Hid. unfold AddScheduleDefaults.fetchClientDefaults. rewrite Hid. simpl.
  destruct o as [|r]; simpl; [split; [by left | done]|].
  destruct (Net.ok r) eqn:Hok; simpl.
  - unfold Net.json. destruct (Net.body r) as [j|] eqn:Hb; simpl.
    + split.
      * intros H. right. exists r. split; [done|]. split; [done|]. right. exists j.
        split; [done|]. destruct j; simpl in *; try done;
          match type of H with
          | context [Js.truthy ?x] => by destruct (Js.truthy x)
          end.
      * intros [|(r' & [= <-] & _ & [Hn|(j' & Hj & Hn)])]; [done|congruence|].
        rewrite Hb in Hj. injection Hj as <-. by destruct j.
    + split; [|done]. intros _. right. exists r. by repeat split; [|left].
  - split; [done|]. intros [|(r' & [= <-] & Hok' & _)]; congruence.
Qed.

Lemma fetchClientDefaults_rejects_witness :
  Js.truthy (Js.Str "42") = true
  /\ AddScheduleDefaults.fetchClientDefaults (Js.Str "42") (Net.json_response Js.Null)
     = Throw.
Proof.
  split; [reflexivity|].
  apply (proj2 (fetchClientDefaults_rejects (Js.Str "42") (Net.json_response Js.Null)
                  eq_refl)).
  right. eexists. split; [reflexivity|]. split; [reflexivity|].
  right. exists Js.Null. split; reflexivity.
Defined.

(** X11.  [ensureDatalist] replaces what the datalist held: calling it
    again for the same datalist gives what the last call alone gives.  The
    datalist then holds, in the order given, one option for each value that
    is truthy and not blank, its value being the value's text; so an option
    is never blank and there are never more options than values.  The
    control's [list] attribute names the datalist, and the other datalists
    and the other controls' attributes are as they were. *)
Theorem datalist_is_replaced (key id : string) (vs vs' : list Js.value)
    (st : Suggestions.store) :
  let st' := Suggestions.ensureDatalist key id vs (Suggestions.ensureDatalist key id vs' st) in
  st' = Suggestions.ensureDatalist key id vs st
  /\ Suggestions.datalists st' !! id
     = Some (map Js.to_string (List.filter Suggestions.keeps vs))
  /\ (forall o, In o (map Js.to_string (List.filter Suggestions.keeps vs)) <->
        exists v, In v vs /\ Js.truthy v = true
                  /\ Js.trim (Js.to_string v) <> "" /\ o = Js.to_string v)
  /\ length (map Js.to_string (List.filter Suggestions.keeps vs)) <= length vs
  /\ Suggestions.list_attr st' !! key = Some id
  /\ (forall id', id' <> id ->
        Suggestions.datalists st' !! id' = Suggestions.datalists st !! id')
  /\ (forall key', key' <> key ->
        Suggestions.list_attr st' !! key' = Suggestions.list_attr st !! key').
Proof.
  unfold Suggestions.ensureDatalist. simpl. split; [by rewrite !insert_insert_eq|].
  split; [by rewrite lookup_insert_eq|].
  split; [|split; [|split; [by rewrite lookup_insert_eq|split]]].
  - intros o. rewrite in_map_iff. split.
    + intros (v & <- & Hv). apply filter_In in Hv as [Hin Hk].
      exists v. unfold Suggestions.keeps in Hk. apply andb_prop in Hk as [Ht Hb].
      split; [done|]. split; [done|]. split; [|done].
      by destruct (String.eqb_spec (Js.trim (Js.to_string v)) "").
    + intros (v & Hin & Ht & Hb & ->). exists v. split; [done|].
      apply filter_In. split; [done|]. unfold Suggestions.keeps. rewrite Ht. simpl.
      by destruct (String.eqb_spec (Js.trim (Js.to_string v)) "").
  - rewrite length_map. induction vs as [|v vs IH]; simpl; [done|].
    destruct (Suggestions.keeps v); simpl; lia.
  - intros id' Hne. by rewrite !lookup_insert_ne.
  - intros key' Hne. by rewrite !lookup_insert_ne.
Qed.

Lemma form_ids_apart k1 p1 n1 k2 p2 n2 a b :
  In (k1, p1, n1) Suggestions.form_lines -> In (k2, p2, n2) Suggestions.form_lines ->
  p1 +:+ a = p2 +:+ b -> k1 = k2 /\ a = b.
Proof.
  simpl. intros H1 H2.
  destruct H1 as [H1|[H1|[H1|[H1|[H1|[H1|[]]]]]]]; injection H1 as <- <- <-;
    destruct H2 as [H2|[H2|[H2|[H2|[H2|[H2|[]]]]]]]; injection H2 as <- <- <-;
    simpl; intros E; by simplify_eq.
Qed.

Lemma form_keys_apart k1 p1 n1 k2 p2 n2 :
  In (k1, p1, n1) Suggestions.form_lines -> In (k2, p2, n2) Suggestions.form_lines ->
  k1 = k2 -> p1 = p2 /\ n1 = n2.
Proof.
  simpl. intros H1 H2.
  destruct H1 as [H1|[H1|[H1|[H1|[H1|[H1|[]]]]]]]; injection H1 as <- <- <-;
    destruct H2 as [H2|[H2|[H2|[H2|[H2|[H2|[]]]]]]]; injection H2 as <- <- <-;
    by intros.
Qed.

Lemma suggest_all_other lines cid c fs st id' :
  (forall key prefix name, In (key, prefix, name) lines -> prefix +:+ cid <> id') ->
  Suggestions.datalists (fst (Suggestions.suggest_all lines cid c fs st)) !! id'
  = Suggestions.datalists st !! id'.
Proof.
  revert st. induction lines as [|[[key prefix] name] lines IH]; intros st Hl; simpl; [done|].
  assert (Suggestions.datalists (fst (Suggestions.suggest key prefix name cid c fs st)) !! id'
          = Suggestions.datalists st !! id') as H1.
  { unfold Suggestions.suggest. destruct (fs !! key); [|done].
    destruct (Js.get c name); [|done]. simpl.
    rewrite lookup_insert_ne; [done|]. apply (Hl key prefix name). by left. }
  destruct (Suggestions.suggest key prefix name cid c fs st) as [st' [[]|]];
    simpl in *; [|done].
  rewrite IH; [done|]. intros k p n Hin. apply (Hl k p n). by right.
Qed.

(** The state after the lines that follow still holds what one line has
    set, when the lines write apart. *)
Lemma suggest_all_hit lines cid c fs st key prefix name :
  Js.nullish c = false ->
  In (key, prefix, name) lines -> is_Some (fs !! key) ->
  (forall k1 p1 n1 k2 p2 n2, In (k1, p1, n1) lines -> In (k2, p2, n2) lines ->
     (k1 = k2 \/ p1 +:+ cid = p2 +:+ cid) -> k1 = k2 /\ p1 = p2 /\ n1 = n2) ->
  let st' := fst (Suggestions.suggest_all lines cid c fs st) in
  snd (Suggestions.suggest_all lines cid c fs st) = Normal tt
  /\ Suggestions.list_attr st' !! key = Some (prefix +:+ cid)
  /\ Suggestions.datalists st' !! (prefix +:+ cid)
     = Some (Suggestions.options_for (Js.prop c name)).
Proof.
  intros Hc Hin [f Hf] Hapart. cbv zeta.
  assert (forall n, Js.get c n = Normal (Js.prop c n)) as Hget by (intros n; by destruct c).
  assert (forall ls st0,
            (forall k p n, In (k, p, n) ls -> In (k, p, n) lines) ->
            snd (Suggestions.suggest_all ls cid c fs st0) = Normal tt
            /\ (In (key, prefix, name) ls \/
                (Suggestions.list_attr st0 !! key = Some (prefix +:+ cid)
                 /\ Suggestions.datalists st0 !! (prefix +:+ cid)
                    = Some (Suggestions.options_for (Js.prop c name))) ->
                Suggestions.list_attr (fst (Suggestions.suggest_all ls cid c fs st0)) !! key
                = Some (prefix +:+ cid)
                /\ Suggestions.datalists (fst (Suggestions.suggest_all ls cid c fs st0))
                     !! (prefix +:+ cid)
                   = Some (Suggestions.options_for (Js.prop c name)))) as H.
  { induction ls as [|[[k p] n] ls IH]; intros st0 Hsub; simpl.
    - split; [done|]. by intros [[]|].
    - unfold Suggestions.suggest. rewrite Hget.
      assert (forall x y z, In (x, y, z) ls -> In (x, y, z) lines) as Hsub'
        by (intros x y z Hx; apply Hsub; by right).
      assert (In (k, p, n) lines) as Hk by (apply Hsub; by left).
      destruct (fs !! k) as [g|] eqn:Eg; simpl.
      + destruct (IH (Suggestions.ensureDatalist k (p +:+ cid) [Js.prop c n] st0) Hsub')
          as [Hs Hl].
        split; [done|]. intros [[Heq|Hin']|[Ha Hd]].
        * injection Heq as -> -> ->. destruct (in_dec
            (fun x y : string * string * string => decide (x = y)) (key, prefix, name) ls)
            as [Hyes|Hno]; [apply Hl; by left|].
          apply Hl. right. simpl. by rewrite !lookup_insert_eq.
        * apply Hl. by left.
        * destruct (decide (k = key)) as [->|Hne].
          { destruct (Hapart key p n key prefix name Hk Hin (or_introl eq_refl))
              as (_ & -> & ->).
            apply Hl. right. simpl. by rewrite !lookup_insert_eq. }
          apply Hl. right. simpl. rewrite !lookup_insert_ne; [done| |done].
          intros E. by destruct (Hapart k p n key prefix name Hk Hin (or_intror E)).
      + destruct (IH st0 Hsub') as [Hs Hl]. split; [done|].
        intros [[Heq|Hin']|Hst]; [|apply Hl; by left|apply Hl; by right].
        injection Heq as -> -> ->. congruence. }
  destruct (H lines st (fun k p n Hx => Hx)) as [Hs Hl].
  split; [done|]. apply Hl. by left.
Qed.

(** X12.  The suggestions follow the client.  After [onClientChange] has
    run for client [a] and then for another client [b], every located
    control points to its datalist for [b], which holds [b]'s default when
    that is not blank and nothing otherwise - and the datalist made for
    [a] is still in the document, with [a]'s default. *)
Theorem suggestions_follow_the_client (a b : string) (ca cb : Js.value)
    (fs : gmap string field) (st : Suggestions.store) (key prefix name : string) :
  Js.nullish ca = false -> Js.nullish cb = false -> a <> b ->
  In (key, prefix, name) Suggestions.form_lines -> is_Some (fs !! key) ->
  let st1 := fst (Suggestions.onClientChange_suggestions a ca fs st) in
  let st2 := fst (Suggestions.onClientChange_suggestions b cb fs st1) in
  Suggestions.list_attr st2 !! key = Some (prefix +:+ b)
  /\ Suggestions.datalists st2 !! (prefix +:+ b)
     = Some (Suggestions.options_for (Js.prop cb name))
  /\ Suggestions.datalists st2 !! (prefix +:+ a)
     = Some (Suggestions.options_for (Js.prop ca name)).
Proof.
  intros Ha Hb Hab Hin Hf. cbv zeta. unfold Suggestions.onClientChange_suggestions.
  assert (forall cid k1 p1 n1 k2 p2 n2,
            In (k1, p1, n1) Suggestions.form_lines ->
            In (k2, p2, n2) Suggestions.form_lines ->
            k1 = k2 \/ p1 +:+ cid = p2 +:+ cid -> k1 = k2 /\ p1 = p2 /\ n1 = n2) as Hapart.
  { intros cid k1 p1 n1 k2 p2 n2 H1 H2 [E|E].
    - split; [done|]. by apply (form_keys_apart k1 p1 n1 k2 p2 n2).
    - destruct (form_ids_apart _ _ _ _ _ _ _ _ H1 H2 E) as [-> _].
      split; [done|]. by apply (form_keys_apart k2 p1 n1 k2 p2 n2). }
  destruct (suggest_all_hit Suggestions.form_lines a ca fs st key prefix name
              Ha Hin Hf (Hapart a)) as (_ & _ & Hda).
  destruct (suggest_all_hit Suggestions.form_lines b cb fs
              (fst (Suggestions.suggest_all Suggestions.form_lines a ca fs st))
              key prefix name Hb Hin Hf (Hapart b)) as (_ & Hlb & Hdb).
  split; [done|]. split; [done|].
  rewrite suggest_all_other; [done|].
  intros k p n Hk E. destruct (form_ids_apart _ _ _ _ _ _ _ _ Hk Hin E) as [_ ?].
  by subst.
Qed.

Lemma suggestions_follow_the_client_witness :
  "7" <> "9"
  /\ Suggestions.datalists
       (fst (Suggestions.onClientChange_suggestions "9" AddScheduleSpinner.pine
               (AddScheduleDefaults.controls AddScheduleDefaults.sample_form)
               (fst (Suggestions.onClientChange_suggestions "7" AddScheduleSpinner.oak
                       (AddScheduleDefaults.controls AddScheduleDefaults.sample_form)
                       Suggestions.no_suggestions))))
       !! "dl_pickup_addr_7"
     = Some ["1 Oak Ave"].
Proof.
  split; [discriminate|].
  exact (proj2 (proj2
           (suggestions_follow_the_client "7" "9" AddScheduleSpinner.oak
              AddScheduleSpinner.pine
              (AddScheduleDefaults.controls AddScheduleDefaults.sample_form)
              Suggestions.no_suggestions "id_pickup_address" "dl_pickup_addr_"
              "pickup_address" eq_refl eq_refl ltac:(discriminate) (or_introl eq_refl)
              (ex_intro _ _ eq_refl)))).
Defined.

End DefaultsMore.

(** ** More on binding rows and on the delegated listener *)

Module BindingMore.
Import AdminClientDefaults.

Lemma bindAll_fetches rows :
  snd (bindAll rows) = map admin_defaults_url (omap currentClientId rows).
Proof.
  induction rows as [|r rows IH]; simpl; [done|].
  destruct (bindAll rows) as [rest fs]. simpl in *. rewrite IH.
  destruct (currentClientId r) as [cid|] eqn:E; simpl; [|done].
  unfold applyClientDefaults_begin.
  destruct (String.eqb_spec cid ""); [|done].
  by apply BindingFacts.currentClientId_nonempty in E.
Qed.

(** X13.  Every pass of [bindAll] fetches the defaults of each row that has
    a current client id, once, in document order, and of no other row; a
    later pass - one runs whenever a row is added - fetches them all
    again. *)
Theorem every_pass_fetches_again (rows : list row) :
  snd (bindAll rows) = map admin_defaults_url (omap currentClientId rows)
  /\ snd (bindAll (fst (bindAll rows))) = snd (bindAll rows)
  /\ length (snd (bindAll rows)) <= length rows.
Proof.
  split; [apply bindAll_fetches|]. split.
  - rewrite !bindAll_fetches, BindingFacts.bindAll_rows. f_equal.
    induction rows as [|r rows IH]; [done|].
    cbn [map omap list_omap].
    change (currentClientId (more_listeners 1 r)) with (currentClientId r).
    destruct (currentClientId r); [f_equal|]; exact IH.
  - rewrite bindAll_fetches, length_map.
    induction rows as [|r rows IH]; [done|].
    cbn [omap list_omap]. destruct (currentClientId r); cbn [length]; lia.
Qed.

End BindingMore.

Module ListenerMore.
Import AutofillClientAdmin.

Lemma find_index_Some {A} (f : A -> bool) (l : list A) i :
  find_index f l = Some i -> exists x, l !! i = Some x /\ f x = true.
Proof.
  revert i. induction l as [|x l IH]; intros i; simpl; [done|].
  destruct (f x) eqn:E; [intros [= <-]; by exists x|].
  destruct (find_index f l) as [j|]; simpl; [|done].
  intros [= <-]. by apply IH.
Qed.

Lemma find_index_None {A} (f : A -> bool) (l : list A) :
  find_index f l = None <-> forall x, In x l -> f x = false.
Proof.
  induction l as [|x l IH]; simpl; [by split|].
  destruct (f x) eqn:E.
  - split; [done|]. intros H. specialize (H x (or_introl eq_refl)). congruence.
  - destruct (find_index f l) as [j|]; simpl.
    + split; [done|]. intros H. assert (Some j = None) as [=]. apply IH.
      intros y Hy. apply H. by right.
    + split; [|done]. intros _ y [<-|Hy]; [done|]. by apply IH.
Qed.

Lemma lookup_In {A} (l : list A) i x : l !! i = Some x -> In x l.
Proof.
  revert i. induction l as [|y l IH]; intros [|i]; simpl; try done.
  - intros [= ->]. by left.
  - intros H. right. by eapply IH.
Qed.

(** X14.  [findField] is sound and complete for its selectors: the element
    it returns has an id or a name that ends with one of the suffixes, and
    it returns [null] exactly when no element of the row has. *)
Theorem findField_finds (root : list element) (sufs : list string) :
  (forall i, findField root sufs = Some i ->
     exists e suf, root !! i = Some e /\ In suf sufs
                   /\ (Js.ends_with suf (el_id e) = true
                       \/ Js.ends_with suf (el_name e) = true))
  /\ (findField root sufs = None <->
      forall e suf, In e root -> In suf sufs ->
        Js.ends_with suf (el_id e) = false /\ Js.ends_with suf (el_name e) = false).
Proof.
  induction sufs as [|suf sufs [IH1 IH2]]; simpl; [by split|].
  destruct (find_index (fun e => Js.ends_with suf (el_id e)) root) as [i|] eqn:E1.
  { split.
    - intros ? [= <-]. destruct (find_index_Some _ _ _ E1) as (e & He & Hf).
      exists e, suf. split; [done|]. split; [by left | by left].
    - split; [done|]. intros H. destruct (find_index_Some _ _ _ E1) as (e & He & Hf).
      destruct (H e suf) as [H1 _]; [by eapply lookup_In
                                    | by left | congruence]. }
  destruct (find_index (fun e => Js.ends_with suf (el_name e)) root) as [i|] eqn:E2.
  { split.
    - intros ? [= <-]. destruct (find_index_Some _ _ _ E2) as (e & He & Hf).
      exists e, suf. split; [done|]. split; [by left | by right].
    - split; [done|]. intros H. destruct (find_index_Some _ _ _ E2) as (e & He & Hf).
      destruct (H e suf) as [_ H2]; [by eapply lookup_In
                                    | by left | congruence]. }
  split.
  - intros i Hi. destruct (IH1 i Hi) as (e & s' & He & Hs & Hm).
    exists e, s'. split; [done|]. split; [by right | done].
  - rewrite IH2. split.
    + intros H e s' He [<-|Hs]; [|by apply H].
      split; [by apply (proj1 (find_index_None _ _) E1)
             | by apply (proj1 (find_index_None _ _) E2)].
    + intros H e s' He Hs. apply H; [done | by right].
Qed.

Lemma findField_finds_witness :
  findField [{| el_id := "id_pickup_address"; el_name := "pickup_address";
                el_value := ""; el_kind := TextInput |};
             {| el_id := "id_note"; el_name := "form-0-notes";
                el_value := ""; el_kind := TextArea |}]
            ["notes"]
  = Some 1.
Proof.
  destruct (findField_finds
              [{| el_id := "id_pickup_address"; el_name := "pickup_address";
                  el_value := ""; el_kind := TextInput |};
               {| el_id := "id_note"; el_name := "form-0-notes";
                  el_value := ""; el_kind := TextArea |}]
              ["notes"]) as [H _].
  destruct (H 1 eq_refl) as (e & suf & _). reflexivity.
Defined.

Lemma set_other el v s j :
  el <> Some j -> elements (set el v s) !! j = elements s !! j.
Proof.
  intros Hne. unfold set. destruct el as [i|]; [|done].
  destruct (elements s !! i); [|done]. simpl.
  apply list_lookup_insert_ne. congruence.
Qed.

(** X15.  The delegated admin listener writes without looking: when the
    answer is a truthy body whose addresses, times and notes are primitive
    values, the element found for notes holds afterwards what an element of
    its kind stores of the body's notes, or of the empty string when the
    body has none; an element that [findField] finds for none of the four
    lookups is left as it was, and no element changes its id, its name or
    its kind.  A falsy answer changes nothing. *)
Theorem listener_writes_what_it_finds (o : Net.fetch_result) (d : Js.value) (s : scope) :
  fetchMini o = Normal d ->
  (Js.truthy d = false -> listener_resume o s = s)
  /\ (Js.truthy d = true ->
      (forall i e,
         Js.primitive_at d ["pickup_address"; "dropoff_address"; "pickup_time";
                            "start_time"; "notes"] = true ->
         findField (elements s) ["notes"] = Some i ->
         elements s !! i = Some e ->
         el_value <$> elements (listener_resume o s) !! i
         = Some (stores (el_kind e)
                   (Js.to_string (Js.or (Js.prop d "notes") (Js.Str "")))))
      /\ (forall j,
            findField (elements s) ["pickup_address"] <> Some j ->
            findField (elements s) ["dropoff_address"] <> Some j ->
            findField (elements s) ["start_time"; "pickup_time"] <> Some j ->
            findField (elements s) ["notes"] <> Some j ->
            elements (listener_resume o s) !! j = elements s !! j)
      /\ shape (elements (listener_resume o s)) = shape (elements s)
      /\ el_kind <$> elements (listener_resume o s) = el_kind <$> elements s).
Proof.
  intros Ho. split; [intros Hd; unfold listener_resume; by rewrite Ho, Hd|].
  intros Hd.
  split; [|split; [|split; [apply AdminListenerFacts.listener_resume_shape
                           |apply AdminListenerFacts.listener_resume_kinds]]].
  - intros i e _ Hi Hei. unfold listener_resume. rewrite Ho, Hd. cbn [negb].
    cbv iota zeta.
    set (s3 := set _ _ (set _ _ (set _ _ s))).
    assert (shape (elements s3) = shape (elements s)) as H3
      by (unfold s3; by rewrite !AdminListenerFacts.set_shape).
    assert (el_kind <$> elements s3 = el_kind <$> elements s) as K3
      by (unfold s3; by rewrite !AdminListenerFacts.set_kinds).
    rewrite (AdminListenerFacts.findField_shape _ _ ["notes"] H3), Hi.
    assert (is_Some (elements s3 !! i)) as [e3 He].
    { rewrite <- (AdminListenerFacts.findField_shape _ _ ["notes"] H3) in Hi.
      by eapply AdminListenerFacts.findField_lookup. }
    unfold set. rewrite He. simpl.
    rewrite list_lookup_insert_eq by (by eapply lookup_lt_Some). simpl.
    by rewrite (AdminListenerFacts.kind_at _ _ i e e3 K3 Hei He).
  - intros j H1 H2 H3 H4. unfold listener_resume. rewrite Ho, Hd. cbn [negb].
    cbv iota zeta.
    set (s1 := set _ _ s).
    assert (shape (elements s1) = shape (elements s)) as Hs1
      by (unfold s1; by rewrite AdminListenerFacts.set_shape).
    rewrite (AdminListenerFacts.findField_shape _ _ ["dropoff_address"] Hs1).
    set (s2 := set _ _ s1).
    assert (shape (elements s2) = shape (elements s)) as Hs2
      by (unfold s2; by rewrite AdminListenerFacts.set_shape).
    rewrite (AdminListenerFacts.findField_shape _ _ ["start_time"; "pickup_time"] Hs2).
    set (s3 := set _ _ s2).
    assert (shape (elements s3) = shape (elements s)) as Hs3
      by (unfold s3; by rewrite AdminListenerFacts.set_shape).
    rewrite (AdminListenerFacts.findField_shape _ _ ["notes"] Hs3).
    rewrite set_other by done. unfold s3. rewrite set_other by done.
    unfold s2. rewrite set_other by done. unfold s1. by rewrite set_other.
Qed.

Lemma listener_writes_what_it_finds_witness :
  fetchMini (Net.json_response AddScheduleSpinner.two_lines) = Normal AddScheduleSpinner.two_lines
  /\ el_value <$> elements (listener_resume (Net.json_response AddScheduleSpinner.two_lines)
                              notes_row) !! 0
     = Some ("Gate 4" +:+ String line_feed "Ring twice").
Proof.
  split; [reflexivity|].
  exact (proj1 (proj2 (listener_writes_what_it_finds
                         (Net.json_response AddScheduleSpinner.two_lines)
                         AddScheduleSpinner.two_lines notes_row eq_refl) eq_refl)
           0 _ eq_refl eq_refl eq_refl).
Defined.

End ListenerMore.

(** ** More on the type-ahead: failures, the status line, debouncing *)

Module TypeaheadMore.
Import ClientTypeahead.

Lemma add_options_quiet rs s i :
  selected s = Some i ->
  dispatched (fst (add_options rs s)) = dispatched s
  /\ selected (fst (add_options rs s)) = Some i
  /\ options (fst (add_options rs s)) = options s ++ options_before_failure rs.
Proof.
  revert s. induction rs as [|r rs IH]; intros s Hs; simpl.
  - split; [done|]. split; [done|]. by rewrite app_nil_r.
  - destruct (option_for r) as [o|]; simpl.
    + destruct (IH (appendChild o s)) as (Hd & Hsel & Hb);
        [simpl; by rewrite Hs|].
      split; [done|]. split; [done|].
      rewrite Hb. simpl. by rewrite <- app_assoc.
    + split; [done|]. split; [done|]. by rewrite app_nil_r.
Qed.

(** The loop throws at the first result for which no option can be
    built, having built one for each result before it. *)
Lemma add_options_throw rs s :
  snd (add_options rs s) = Throw ->
  exists before r after,
    rs = before ++ r :: after
    /\ option_for r = Throw
    /\ Forall2 (fun r o => option_for r = Normal o) before (options_before_failure rs).
Proof.
  revert s. induction rs as [|r rs IH]; intros s; simpl; [done|].
  destruct (option_for r) as [o|] eqn:E.
  - intros H. destruct (IH _ H) as (before & r' & after & -> & Hr & Hb).
    exists (r :: before), r', after. split; [done|]. split; [done|].
    by constructor.
  - intros _. exists [], r, rs. split; [done|]. split; [done|]. constructor.
Qed.

(** A rebuild that throws has dispatched nothing and has left the
    placeholder selected, followed by the options built until then. *)
Lemma failed_rebuild s results keep :
  snd (rebuildOptions s results keep) = Throw ->
  dispatched (fst (rebuildOptions s results keep)) = dispatched s
  /\ selected (fst (rebuildOptions s results keep)) = Some 0
  /\ options (fst (rebuildOptions s results keep)) = placeholder :: built_from results.
Proof.
  unfold rebuildOptions, built_from. destruct (iterate results) as [rs|]; simpl.
  - destruct (add_options_quiet rs (appendChild placeholder (clear s)) 0 eq_refl)
      as (Hd & Hsel & Hb).
    destruct (add_options rs (appendChild placeholder (clear s))) as [s' [[]|]];
      simpl in *; [done|]. by intros _.
  - by intros _.
Qed.

(** X16.  An answer that parses but does not carry results that can be
    turned into options - no [results] array, or an item whose name is
    neither a string nor falsy - empties the select all the same (the ids
    of the results, where there are any, being primitive values): none of
    the options it had is left, the select holds the placeholder followed
    by the options built for the results before the first failing one
    (none at all when [results] cannot be iterated), the placeholder is
    selected and so the select's value is empty, no input or change event
    is dispatched, and the status line reads "Search failed". *)
Theorem malformed_page_wipes_the_list (q : string) (w : widget) (json : Js.value) :
  Js.nullish json = false ->
  snd (rebuildOptions (sel w) (Js.prop json "results") Js.Undefined) = Throw ->
  (forall rs, iterate (Js.prop json "results") = Normal rs ->
     Forall (fun r => Js.primitive (Js.prop r "id") = true) rs) ->
  let w' := run_resume q (Net.json_response json) w in
  status_line w' = SearchFailed
  /\ dispatched (sel w') = dispatched (sel w)
  /\ options (sel w') = placeholder :: built_from (Js.prop json "results")
  /\ selected (sel w') = Some 0
  /\ select_value (sel w') = ""
  /\ match iterate (Js.prop json "results") with
     | Throw => built_from (Js.prop json "results") = []
     | Normal rs =>
         exists before r after,
           rs = before ++ r :: after
           /\ option_for r = Throw
           /\ Forall2 (fun r o => option_for r = Normal o) before
                (built_from (Js.prop json "results"))
     end.
Proof.
  intros Hj Ht _. cbv zeta.
  destruct (failed_rebuild _ _ _ Ht) as (Hd & Hsel & Hb).
  assert (run_resume q (Net.json_response json) w
          = {| search_value := search_value w; status_line := SearchFailed;
               sel := fst (rebuildOptions (sel w) (Js.prop json "results") Js.Undefined) |})
    as ->.
  { unfold run_resume, searchClients, Net.json_response.
    cbn [Net.fetch Net.ok Net.status Net.is_json Net.ct Net.content_type Net.json Net.body
         mbind completion_bind mret completion_ret].
    change (Net.ok _) with true. change (Net.is_json _) with true. cbn [negb].
    cbv iota. destruct json; try done;
      cbn [Js.get Js.prop mbind completion_bind mret completion_ret] in *;
      by destruct (rebuildOptions _ _ _) as [s' [[]|]]. }
  cbn [sel status_line].
  split; [done|]. split; [done|]. split; [done|]. split; [done|].
  split; [unfold select_value; by rewrite Hsel, Hb|].
  unfold rebuildOptions, built_from in *.
  destruct (iterate (Js.prop json "results")) as [rs|]; [|done].
  apply (add_options_throw rs (appendChild placeholder (clear (sel w)))).
  by destruct (add_options rs (appendChild placeholder (clear (sel w)))) as [s' [[]|]].
Qed.

Lemma malformed_page_wipes_the_list_witness :
  Js.nullish broken_page = false
  /\ snd (rebuildOptions sample_select (Js.prop broken_page "results") Js.Undefined) = Throw
  /\ options (sel (run_resume "j" (Net.json_response broken_page)
                     {| search_value := "j"; status_line := Searching;
                        sel := sample_select |}))
     = [placeholder; {| opt_value := "9"; opt_label := "Joe Bloggs" |}].
Proof.
  split; [reflexivity|]. split; [reflexivity|].
  destruct (malformed_page_wipes_the_list "j"
              {| search_value := "j"; status_line := Searching; sel := sample_select |}
              broken_page eq_refl eq_refl) as (_ & _ & Ho & _).
  - intros rs [= <-]. repeat constructor.
  - rewrite Ho. reflexivity.
Defined.

(** X17.  After a page of well-formed results the select holds one option
    more than there are results, and the status line counts the results:
    "Showing n+" when the page says there are more, "Found n" otherwise,
    and nothing at all for an empty query. *)
Theorem status_counts_the_results (q : string) (w : widget) (rs : list Js.value)
    (more : Js.value) :
  Forall (fun r => is_item r = true) rs ->
  let w' := run_resume q (Net.json_response
                            (Js.Obj [("results", Js.Arr rs); ("has_more", more)])) w in
  length (options (sel w')) = S (length rs)
  /\ status_line w'
     = (if String.eqb q "" then Blank
        else if Js.truthy more then Showing (length rs) else Found (length rs)).
Proof.
  intros Hrs. cbv zeta. split.
  - rewrite TypeaheadFacts.run_resume_rebuilds, (TypeaheadFacts.rebuildOptions_items _ _ Hrs).
    cbn [fst dispatchEvent options]. unfold restore.
    destruct (Js.truthy _); [destruct (index_of _ _)|]; simpl; by rewrite length_map.
  - unfold run_resume, searchClients, Net.json_response.
    cbn [Net.fetch Net.json Net.body mbind completion_bind mret completion_ret].
    change (Net.ok _) with true. change (Net.is_json _) with true. cbn [negb].
    cbv iota. cbn [Js.get Js.assoc String.eqb Ascii.eqb Bool.eqb mbind completion_bind
                   mret completion_ret].
    rewrite (TypeaheadFacts.rebuildOptions_items _ _ Hrs).
    destruct (String.eqb q ""); simpl; [done|]. by destruct (Js.truthy more).
Qed.

Lemma status_counts_the_results_witness :
  Forall (fun r => is_item r = true) others
  /\ status_line
       (run_resume "jo" (Net.json_response
                           (Js.Obj [("results", Js.Arr others); ("has_more", Js.Bool true)]))
          {| search_value := "jo"; status_line := Searching; sel := sample_select |})
     = Showing 2.
Proof.
  assert (Forall (fun r => is_item r = true) others) as H by (by repeat constructor).
  split; [exact H|].
  exact (proj2 (status_counts_the_results "jo"
                  {| search_value := "jo"; status_line := Searching; sel := sample_select |}
                  others (Js.Bool true) H)).
Defined.

(** X18.  [searchClients] rejects in exactly two cases: the fetch fails on
    the network, or the status is in 200-299, the content type is JSON and
    the body does not parse. *)
Theorem searchClients_rejects (o : Net.fetch_result) :
  searchClients o = Throw
  <-> o = Net.NetworkError
      \/ exists r, o = Net.Responded r /\ Net.ok r = true /\ Net.is_json r = true
                   /\ Net.body r = None.
Proof.
  unfold searchClients. destruct o as [|r]; simpl; [split; [by left | done]|].
  destruct (Net.ok r) eqn:Hok, (Net.is_json r) eqn:Hj; simpl;
    try (split; [done|]; intros [|(r' & [= <-] & ? & ? & ?)]; congruence).
  unfold Net.json. destruct (Net.body r) eqn:Hb.
  - split; [done|]. intros [|(r' & [= <-] & ? & ? & ?)]; congruence.
  - split; [|done]. intros _. right. by exists r.
Qed.

Lemma searchClients_rejects_witness :
  searchClients Net.html_response = Normal empty_page
  /\ searchClients Net.html_response <> Throw.
Proof.
  split; [reflexivity|].
  intros H. apply (proj1 (searchClients_rejects Net.html_response)) in H.
  destruct H as [H|(r & H & _ & Hj & _)]; [discriminate H|].
  injection H as <-. discriminate Hj.
Defined.

End TypeaheadMore.

Module DebounceFacts.
Import Debounce.

Section Debounce.
Context {A : Type} (ms : nat).

Lemma last_nonempty (c : nat * A) l d d' : List.last (c :: l) d = List.last (c :: l) d'.
Proof. revert c. induction l as [|x l IH]; intros c; [done|]. apply (IH x). Qed.

Lemma calls_burst (cs : list (nat * A)) (s : state A) (t : nat) (a : A) :
  timer s = Some (t + ms, a) -> burst ms t cs ->
  calls ms cs s = {| timer := Some (due_of ms (List.last cs (t, a))); fired := fired s |}.
Proof.
  revert s t a. induction cs as [|[now b] cs IH]; intros s t a Hs Hb.
  - simpl. destruct s. simpl in *. by subst.
  - destruct Hb as (Hle & Hlt & Hb). cbn [calls].
    assert (call ms now b s = {| timer := Some (now + ms, b); fired := fired s |}) as Hc.
    { unfold call, advance. rewrite Hs.
      destruct (Nat.ltb_spec (t + ms) now); [lia | done]. }
    rewrite (IH (call ms now b s) now b); [|by rewrite Hc|done].
    rewrite Hc. simpl. destruct cs as [|c cs]; [done|].
    by rewrite (last_nonempty c cs (now, b) (t, a)).
Qed.

(** X19.  Keystrokes that each come less than [ms] after the one before
    make the debounced function run once: [ms] after the last of them, with
    the arguments of the last. *)
Theorem burst_fires_once (t0 : nat) (a0 : A) (cs : list (nat * A)) :
  burst ms t0 cs ->
  settle (calls ms ((t0, a0) :: cs) idle) = [due_of ms (List.last cs (t0, a0))].
Proof.
  intros Hb. cbn [calls].
  by rewrite (calls_burst cs (call ms t0 a0 idle) t0 a0 eq_refl Hb).
Qed.

Lemma settle_call (now : nat) (a : A) (s : state A) :
  exists pre, settle (call ms now a s) = pre ++ [due_of ms (now, a)]
              /\ sublist pre (settle s).
Proof.
  unfold call, advance, settle. destruct (timer s) as [[due b]|] eqn:E; simpl.
  - destruct (due <? now)%nat; simpl; eexists; (split; [done|]);
      [done | by apply sublist_inserts_r].
  - by eexists.
Qed.

Lemma settle_calls (cs : list (nat * A)) (s : state A) :
  sublist (settle (calls ms cs s)) (settle s ++ map (due_of ms) cs)
  /\ (cs <> [] -> last (settle (calls ms cs s)) = last (map (due_of ms) cs)).
Proof.
  revert s. induction cs as [|[now a] cs IH]; intros s.
  - simpl. by rewrite app_nil_r.
  - cbn [calls map]. destruct (IH (call ms now a s)) as [Hsub Hlast].
    destruct (settle_call now a s) as (pre & Hpre & Hs). split.
    + etrans; [exact Hsub|]. rewrite Hpre, <- app_assoc. simpl.
      by apply sublist_app.
    + intros _. destruct cs as [|c cs].
      * simpl. rewrite Hpre. by rewrite last_snoc.
      * by rewrite Hlast.
Qed.

(** X20.  However the calls are spaced, the debounced function runs no
    more often than it was called; each run comes [ms] after a call and
    carries that call's arguments, in the order of the calls; and the last
    call is never lost. *)
Theorem runs_follow_calls (cs : list (nat * A)) :
  sublist (settle (calls ms cs idle)) (map (due_of ms) cs)
  /\ length (settle (calls ms cs idle)) <= length cs
  /\ last (settle (calls ms cs idle)) = last (map (due_of ms) cs).
Proof.
  destruct (settle_calls cs idle) as [Hsub Hlast]. simpl in Hsub.
  split; [done|]. split.
  - apply sublist_length in Hsub. by rewrite length_map in Hsub.
  - destruct cs; [done | by apply Hlast].
Qed.

End Debounce.

Lemma burst_fires_once_witness :
  burst 250 0 [(100, "ja"); (300, "jan"); (520, "jane")]
  /\ settle (calls 250 [(0, "j"); (100, "ja"); (300, "jan"); (520, "jane")] idle)
     = [(770, "jane")].
Proof.
  assert (burst 250 0 [(100, "ja"); (300, "jan"); (520, "jane")]) as H
    by (simpl; lia).
  split; [exact H|].
  exact (burst_fires_once 250 0 "j" [(100, "ja"); (300, "jan"); (520, "jane")] H).
Defined.

End DebounceFacts.
